(** * Open Links Outside Tab Group: the tab placement coordinator

    A shallow embedding of [background.js].  The file holds two revisions of
    the extension's background script, one after the other:

    - lines 1-105, the direct revision (no stabilisation delay, one move
      attempt), embedded in [Module Direct];
    - lines 106-238, the stabilised revision ([STABILIZE_MS], one retry),
      embedded in [Module Stabilized].

    [isGrouped], the activation listener, [getOpenerForNewTab],
    [lastIndexOfGroup] and [ensureUngrouped] are the same in both revisions
    and are embedded once.

    Every [await browser.*] is a call to the host, which may resolve or
    reject.  A handler is a finite tree of such calls ([prog]); [run]
    executes one against a host, given as a state machine, and records the
    calls it made.

    What the handlers call, in which order and with which arguments, is
    proved for every host.  Where a tab ends up depends on what the host does
    with a call; that is proved on a reference host, [browser], which follows
    the host interface of the specification: no call fails while the tab and
    the window it names exist, and the indices of every window stay dense
    ([run_well_formed]). *)

From Stdlib Require Import ZArith List Bool Lia Permutation.
From stdpp Require Import gmap.
Import ListNotations.

Local Open Scope Z_scope.

(** ** Data model *)

(** A [tabs.Tab] snapshot.  [groupId] and [openerTabId] are [None] when the
    property is not a number ([typeof x !== "number"]). *)
Record Tab := mkTab {
  tab_id : Z;
  tab_windowId : Z;
  tab_groupId : option Z;
  tab_index : Z;
  tab_openerTabId : option Z
}.

(** What [windows.create] resolves to; only [id] is read. *)
Record Window := mkWindow { win_id : Z }.

(** An entry of [lastTwoActiveByWindow]; a field is [None] while it is
    [undefined]. *)
Record ActiveRecord := mkRec {
  current : option Z;
  previous : option Z
}.

(** The static part of the [browser] object the script reads:
    [browser.tabGroups.TAB_GROUP_ID_NONE] when it is a number, and whether
    [browser.tabs.ungroup] is present. *)
Class Capabilities := {
  tabGroups_TAB_GROUP_ID_NONE : option Z;
  tabs_ungroup : bool
}.

(** ** Host calls *)

Inductive hostE : Type -> Type :=
| TabsGet (tabId : Z) : hostE Tab
| TabsQuery (windowId : Z) (groupId : option Z) : hostE (list Tab)
| TabsMove (tabId windowId index : Z) : hostE unit
| TabsUngroup (tabIds : list Z) : hostE unit
| WindowsCreate : hostE Window
| WindowsRemove (windowId : Z) : hostE unit
| SetTimeout (ms : Z) : hostE unit.

Inductive outcome (X : Type) : Type :=
| Resolved (x : X)
| Rejected.
Arguments Resolved {X} x.
Arguments Rejected {X}.

(** An async function body: it returns, throws, or awaits a host call and
    goes on with the call's outcome. *)
Inductive prog (R : Type) : Type :=
| Done (r : R)
| Raise
| Vis {X : Type} (e : hostE X) (k : outcome X -> prog R).
Arguments Done {R} r.
Arguments Raise {R}.
Arguments Vis {R X} e k.

Fixpoint bind {A B : Type} (p : prog A) (f : A -> prog B) : prog B :=
  match p with
  | Done a => f a
  | Raise => Raise
  | Vis e k => Vis e (fun o => bind (k o) f)
  end.

#[export] Instance prog_ret : MRet prog := fun _ r => Done r.
#[export] Instance prog_bind : MBind prog := fun _ _ f p => bind p f.

(** [try { body } catch { handler }] *)
Fixpoint try_catch {R : Type} (body handler : prog R) : prog R :=
  match body with
  | Done r => Done r
  | Raise => handler
  | Vis e k => Vis e (fun o => try_catch (k o) handler)
  end.

(** [await browser.api(...)]: a rejection is thrown at the await. *)
Definition await {X : Type} (e : hostE X) : prog X :=
  Vis e (fun o => match o with Resolved x => Done x | Rejected => Raise end).

(** [await wait(ms)]: the promise around [setTimeout] only ever resolves. *)
Definition wait (ms : Z) : prog unit :=
  Vis (SetTimeout ms) (fun _ => Done tt).

(** ** Running a handler against a host *)

Definition Host (S : Type) : Type := forall X : Type, hostE X -> S -> outcome X * S.

(** One entry of a run's trace: the call made and how the host answered. *)
Inductive call : Type :=
| CGet (tabId : Z) (o : outcome Tab)
| CQuery (windowId : Z) (groupId : option Z) (o : outcome (list Tab))
| CMove (tabId windowId index : Z) (o : outcome unit)
| CUngroup (tabIds : list Z) (o : outcome unit)
| CCreate (o : outcome Window)
| CRemove (windowId : Z) (o : outcome unit)
| CTimeout (ms : Z) (o : outcome unit).

Definition log {X : Type} (e : hostE X) : outcome X -> call :=
  match e in hostE X return outcome X -> call with
  | TabsGet i => CGet i
  | TabsQuery w g => CQuery w g
  | TabsMove i w idx => CMove i w idx
  | TabsUngroup ids => CUngroup ids
  | WindowsCreate => CCreate
  | WindowsRemove w => CRemove w
  | SetTimeout ms => CTimeout ms
  end.

Inductive completion (R : Type) : Type :=
| Returned (r : R)
| Thrown.
Arguments Returned {R} r.
Arguments Thrown {R}.

Fixpoint run {S R : Type} (host : Host S) (p : prog R) (s : S)
  : completion R * S * list call :=
  match p with
  | Done r => (Returned r, s, [])
  | Raise => (Thrown, s, [])
  | Vis e k =>
      let '(o, s1) := host _ e s in
      let '(c, s2, tr) := run host (k o) s1 in
      (c, s2, log e o :: tr)
  end.

(** Calls that only read the host or let time pass. *)
Definition is_fetch_or_wait (c : call) : bool :=
  match c with
  | CGet _ _ | CTimeout _ _ => true
  | _ => false
  end.

(** A move to a computed slot.  The relocation of line 79 (205) and the
    window hop pass [index: -1]; the placement passes [min(len, end + 1)],
    which is never negative. *)
Definition is_placement (c : call) : bool :=
  match c with
  | CMove _ _ idx _ => 0 <=? idx
  | _ => false
  end.

(** ** The script *)

Section Script.
Context `{Capabilities}.

(** background.js:7-10 and 132-135 *)
Definition TAB_GROUP_ID_NONE : Z :=
  match tabGroups_TAB_GROUP_ID_NONE with
  | Some n => n
  | None => -1
  end.

(** background.js:13-14 and 137-138; [None] is a null or undefined [tab]. *)
Definition isGrouped (tab : option Tab) : bool :=
  match tab with
  | Some t =>
      match tab_groupId t with
      | Some g => negb (g =? TAB_GROUP_ID_NONE)
      | None => false
      end
  | None => false
  end.

(** [rec.current !== tabId] is false exactly when [current] is that number. *)
Definition is_id (v : option Z) (n : Z) : bool :=
  match v with
  | Some c => c =? n
  | None => false
  end.

(** background.js:18-25 and 142-149: the [onActivated] listener, as an
    update of [lastTwoActiveByWindow]. *)
Definition onActivated (tabId windowId : Z) (m : gmap Z ActiveRecord)
  : gmap Z ActiveRecord :=
  let rec := default (mkRec None None) (m !! windowId) in
  if negb (is_id (current rec) tabId)
  then <[windowId := mkRec (Some tabId) (current rec)]> m
  else m.

(** background.js:33-36 and 157-160 *)
Definition candidateId (m : gmap Z ActiveRecord) (newTab : Tab) : option Z :=
  match m !! tab_windowId newTab with
  | Some rec =>
      match current rec with
      | Some c => if c =? tab_id newTab then previous rec else Some c
      | None => None
      end
  | None => None
  end.

(** background.js:28-41 and 152-165.  [m] is [lastTwoActiveByWindow] as
    line 32 (156) finds it; the map is read there once.  A [try] whose
    body returns yields [Some] of the returned value, and [None] when the
    [catch] swallowed a rejection and the function goes on. *)
Definition getOpenerForNewTab (m : gmap Z ActiveRecord) (newTab : Tab)
  : prog (option Tab) :=
  fetched ← match tab_openerTabId newTab with
            | Some openerTabId =>
                try_catch (t ← await (TabsGet openerTabId); mret (Some t))
                          (mret None)
            | None => mret None
            end;
  match fetched with
  | Some t => mret (Some t)
  | None =>
      match candidateId m newTab with
      | Some c =>
          try_catch (t ← await (TabsGet c); mret (Some t)) (mret None)
      | None => mret None
      end
  end.

(** background.js:47 and 171, the loop body. *)
Definition raise_end (end_ : Z) (t : Tab) : Z :=
  if tab_index t >? end_ then tab_index t else end_.

(** The loop of background.js:46-48 and 170-172. *)
Definition groupEnd (groupTabs : list Tab) : Z :=
  fold_left raise_end groupTabs (-1).

(** background.js:44-49 and 168-173 *)
Definition lastIndexOfGroup (groupId : option Z) (windowId : Z) : prog Z :=
  groupTabs ← await (TabsQuery windowId groupId);
  mret (groupEnd groupTabs).

(** background.js:52-65 and 176-190.  The first [try] returns from the
    function when [tabs.ungroup] resolves ([true]) and falls through to the
    window hop otherwise. *)
Definition ensureUngrouped (tabId windowId : Z) : prog unit :=
  ungrouped ← (if tabs_ungroup
               then try_catch (_ ← await (TabsUngroup [tabId]); mret true)
                              (mret false)
               else mret false);
  if (ungrouped : bool) then mret tt
  else
    try_catch
      (tmp ← await WindowsCreate;
       let tmpId := win_id tmp in
       _ ← await (TabsMove tabId tmpId (-1));
       _ ← await (TabsMove tabId windowId (-1));
       try_catch (await (WindowsRemove tmpId)) (mret tt))
      (mret tt).
End Script.

(** ** The direct revision, background.js:68-105 *)
Module Direct.
Section Script.
Context `{Capabilities}.

(** background.js:68-95.  [fetched] is [None] when the [catch] of line 71
    returned; [moved] is [false] when the [catch] of line 79 returned. *)
Definition moveDirectlyAfterGroup (newTab opener : Tab) : prog unit :=
  fetched ← try_catch (t ← await (TabsGet (tab_id opener)); mret (Some t))
                      (mret None);
  match fetched with
  | None => mret tt
  | Some fetchedOpener =>
      if negb (isGrouped (Some fetchedOpener)) then mret tt
      else
        let winId := tab_windowId fetchedOpener in
        let groupId := tab_groupId fetchedOpener in
        moved ← (if negb (tab_windowId newTab =? winId)
                 then try_catch
                        (_ ← await (TabsMove (tab_id newTab) winId (-1));
                         mret true)
                        (mret false)
                 else mret true);
        if negb moved then mret tt
        else
          _ ← ensureUngrouped (tab_id newTab) winId;
          end_ ← lastIndexOfGroup groupId winId;
          if end_ <? 0 then mret tt
          else
            allTabs ← await (TabsQuery winId None);
            let target := Z.min (Z.of_nat (length allTabs)) (end_ + 1) in
            try_catch (await (TabsMove (tab_id newTab) winId target))
                      (mret tt)
  end.

(** background.js:98-105, the [onCreated] listener. *)
Definition onCreated (m : gmap Z ActiveRecord) (tab : option Tab) : prog unit :=
  match tab with
  | None => mret tt
  | Some tab =>
      opener ← getOpenerForNewTab m tab;
      match opener with
      | None => mret tt
      | Some o =>
          if negb (isGrouped (Some o)) then mret tt
          else moveDirectlyAfterGroup tab o
      end
  end.
End Script.
End Direct.

(** ** The stabilised revision, background.js:128-238 *)
Module Stabilized.
Section Script.
Context `{Capabilities}.

(** background.js:128 *)
Definition STABILIZE_MS : Z := 25.

(** background.js:193-228 *)
Definition moveDirectlyAfterGroup (newTab opener : Tab) : prog unit :=
  let winId := tab_windowId opener in
  _ ← wait STABILIZE_MS;
  fetched ← try_catch (t ← await (TabsGet (tab_id opener)); mret (Some t))
                      (mret None);
  match fetched with
  | None => mret tt
  | Some freshOpener =>
      if negb (isGrouped (Some freshOpener)) then mret tt
      else
        let groupId := tab_groupId freshOpener in
        moved ← (if negb (tab_windowId newTab =? winId)
                 then try_catch
                        (_ ← await (TabsMove (tab_id newTab) winId (-1));
                         mret true)
                        (mret false)
                 else mret true);
        if negb moved then mret tt
        else
          _ ← ensureUngrouped (tab_id newTab) winId;
          end_ ← lastIndexOfGroup groupId winId;
          if end_ <? 0 then mret tt
          else
            allTabs ← await (TabsQuery winId None);
            let target := Z.min (Z.of_nat (length allTabs)) (end_ + 1) in
            try_catch
              (await (TabsMove (tab_id newTab) winId target))
              (_ ← wait STABILIZE_MS;
               try_catch
                 (end2 ← lastIndexOfGroup groupId winId;
                  all2 ← await (TabsQuery winId None);
                  let target2 := Z.min (Z.of_nat (length all2)) (end2 + 1) in
                  await (TabsMove (tab_id newTab) winId target2))
                 (mret tt))
  end.

(** background.js:231-238, the [onCreated] listener. *)
Definition onCreated (m : gmap Z ActiveRecord) (tab : option Tab) : prog unit :=
  match tab with
  | None => mret tt
  | Some tab =>
      opener ← getOpenerForNewTab m tab;
      match opener with
      | None => mret tt
      | Some o =>
          if negb (isGrouped (Some o)) then mret tt
          else moveDirectlyAfterGroup tab o
      end
  end.
End Script.
End Stabilized.

(** ** The host's tab table, as the script's queries see it *)

(** The tab with a given id in a table of live tabs. *)
Definition tab_of (table : list Tab) (i : Z) : option Tab :=
  List.find (fun t => tab_id t =? i) table.

(** The filter of [tabs.query({windowId, groupId})]; an [undefined]
    [groupId] does not filter. *)
Definition query_matches (windowId : Z) (groupId : option Z) (t : Tab) : bool :=
  (tab_windowId t =? windowId) &&
  match groupId with
  | Some g => is_id (tab_groupId t) g
  | None => true
  end.

Definition members (windowId : Z) (groupId : option Z) (table : list Tab)
  : list Tab :=
  List.filter (query_matches windowId groupId) table.

(** ** The opener resolver as section 4.2 of the specification words it *)

Definition fetchTab {S : Type} (host : Host S) (i : Z) (s : S) : option Tab * S :=
  match host _ (TabsGet i) s with
  | (Resolved t, s1) => (Some t, s1)
  | (Rejected, s1) => (None, s1)
  end.

(** Step 2: [current] when it is a different id than the new tab's own,
    [previous] otherwise. *)
Definition historyCandidate (m : gmap Z ActiveRecord) (newTab : Tab) : option Z :=
  match m !! tab_windowId newTab with
  | Some rec =>
      if decide (current rec = Some (tab_id newTab))
      then previous rec
      else current rec
  | None => None
  end.

(** Steps 1 to 3: the explicit opener when its fetch succeeds, else the
    history candidate when its fetch succeeds, else none. *)
Definition resolveOpener {S : Type} (host : Host S) (m : gmap Z ActiveRecord)
    (newTab : Tab) (s : S) : option Tab * S :=
  let explicit := match tab_openerTabId newTab with
                  | Some o => fetchTab host o s
                  | None => (None, s)
                  end in
  match explicit with
  | (Some t, s1) => (Some t, s1)
  | (None, s1) =>
      match historyCandidate m newTab with
      | Some c => fetchTab host c s1
      | None => (None, s1)
      end
  end.

(** ** The history invariant *)

(** Once both fields of a record are populated they differ. *)
Definition distinct_history (m : gmap Z ActiveRecord) : Prop :=
  forall w rec c p,
    m !! w = Some rec -> current rec = Some c -> previous rec = Some p -> c <> p.

(** ** The window hop as section 4.4 of the specification words it *)

(** Create an auxiliary window, move the tab into it, move it back to the
    tail of the original window, discard the auxiliary window; the first
    failure ends the manoeuvre and is swallowed.  The result is the host
    state reached and the calls made. *)
Definition windowHop {S : Type} (host : Host S) (tabId windowId : Z) (s : S)
  : S * list call :=
  match host _ WindowsCreate s with
  | (Rejected, s1) => (s1, [CCreate Rejected])
  | (Resolved aux, s1) =>
      match host _ (TabsMove tabId (win_id aux) (-1)) s1 with
      | (Rejected, s2) =>
          (s2, [CCreate (Resolved aux); CMove tabId (win_id aux) (-1) Rejected])
      | (Resolved u, s2) =>
          match host _ (TabsMove tabId windowId (-1)) s2 with
          | (Rejected, s3) =>
              (s3, [CCreate (Resolved aux);
                    CMove tabId (win_id aux) (-1) (Resolved u);
                    CMove tabId windowId (-1) Rejected])
          | (Resolved u', s3) =>
              let '(o, s4) := host _ (WindowsRemove (win_id aux)) s3 in
              (s4, [CCreate (Resolved aux);
                    CMove tabId (win_id aux) (-1) (Resolved u);
                    CMove tabId windowId (-1) (Resolved u');
                    CRemove (win_id aux) o])
          end
      end
  end.

(** ** A reference host *)

(** Modelled from the spec: the host platform of sections 3, 4.4 and 6 (tab
    and window management), which is not part of the repository.  A table of
    tab records and the ids of the open windows.  A tab's [index] is its
    position within its window. *)
Record Browser := mkBrowser {
  b_tabs : list Tab;
  b_windows : list Z
}.

Definition with_index (t : Tab) (i : Z) : Tab :=
  mkTab (tab_id t) (tab_windowId t) (tab_groupId t) i (tab_openerTabId t).

(** The tabs of a window other than tab [i]. *)
Definition others (windowId i : Z) (table : list Tab) : list Tab :=
  List.filter (fun t => (tab_windowId t =? windowId) && negb (tab_id t =? i)) table.

(** Modelled from the spec: where MoveTo puts a tab (section 4.4): the
    index "clamped to [0, tabCountInWindow]", and the tail of the window
    for index -1.  The count is of the tabs the window holds besides the
    moved one: the tab is taken out of its place before it is put in, so
    that the indices of the window stay dense (section 3) and a tab moved
    within its window goes to the last index at most. *)
Definition slot (windowId i idx : Z) (table : list Tab) : Z :=
  if idx =? -1 then Z.of_nat (length (others windowId i table))
  else Z.max 0 (Z.min idx (Z.of_nat (length (others windowId i table)))).

(** Taking tab [t] out of its window moves the tabs after it down. *)
Definition close_gap (t u : Tab) : Tab :=
  if (tab_windowId u =? tab_windowId t) && (tab_index t <? tab_index u)
  then with_index u (tab_index u - 1) else u.

(** Putting a tab at slot [j] of a window moves the tabs from [j] on up. *)
Definition open_gap (windowId j : Z) (u : Tab) : Tab :=
  if (tab_windowId u =? windowId) && (j <=? tab_index u)
  then with_index u (tab_index u + 1) else u.

Section ReferenceHost.
Context `{Capabilities}.

Definition ungroup_tab (t : Tab) : Tab :=
  mkTab (tab_id t) (tab_windowId t) (Some TAB_GROUP_ID_NONE) (tab_index t)
        (tab_openerTabId t).

(** Modelled from the spec: a tab that crosses windows drops its group
    membership (section 4.4); within its window it keeps its group id. *)
Definition moved (t : Tab) (windowId j : Z) : Tab :=
  mkTab (tab_id t) windowId
        (if tab_windowId t =? windowId then tab_groupId t
         else Some TAB_GROUP_ID_NONE)
        j (tab_openerTabId t).

(** What moving tab [t] to slot [j] of a window does to a tab [u] of the
    table: [t] itself goes there, the others close and open the gaps. *)
Definition place (t : Tab) (windowId j : Z) (u : Tab) : Tab :=
  if tab_id u =? tab_id t then moved u windowId j
  else open_gap windowId j (close_gap t u).

Definition move_tab (t : Tab) (windowId idx : Z) (table : list Tab) : list Tab :=
  map (place t windowId (slot windowId (tab_id t) idx table)) table.

Definition ungroup_in (ids : list Z) (t : Tab) : Tab :=
  if existsb (Z.eqb (tab_id t)) ids then ungroup_tab t else t.

Definition fresh_window (b : Browser) : Z :=
  1 + fold_right Z.max 0 (b_windows b ++ map tab_windowId (b_tabs b)).

(** Modelled from the spec: the host interface of section 6.  A call fails
    when the tab or window it names does not exist. *)
Definition browser : Host Browser := fun X e b =>
  match e in hostE X return outcome X * Browser with
  | TabsGet i =>
      (match tab_of (b_tabs b) i with
       | Some t => Resolved t
       | None => Rejected
       end, b)
  | TabsQuery w g => (Resolved (members w g (b_tabs b)), b)
  | TabsMove i w idx =>
      match tab_of (b_tabs b) i with
      | Some t =>
          if existsb (Z.eqb w) (b_windows b)
          then (Resolved tt, mkBrowser (move_tab t w idx (b_tabs b)) (b_windows b))
          else (Rejected, b)
      | None => (Rejected, b)
      end
  | TabsUngroup ids =>
      if forallb (fun i => existsb (fun t => tab_id t =? i) (b_tabs b)) ids
      then (Resolved tt,
            mkBrowser (map (ungroup_in ids) (b_tabs b)) (b_windows b))
      else (Rejected, b)
  | WindowsCreate =>
      let w := fresh_window b in
      (Resolved (mkWindow w), mkBrowser (b_tabs b) (w :: b_windows b))
  | WindowsRemove w =>
      if existsb (Z.eqb w) (b_windows b)
      then (Resolved tt,
            mkBrowser (List.filter (fun t => negb (tab_windowId t =? w)) (b_tabs b))
                      (List.filter (fun w' => negb (w' =? w)) (b_windows b)))
      else (Rejected, b)
  | SetTimeout _ => (Resolved tt, b)
  end.

(** The reference host among other actors: before it serves the [n]-th
    call of a run, [interference n] has happened to it, and the call is
    rejected outright when [rejects n] holds. *)
Definition scripted (interference : nat -> Browser -> Browser)
    (rejects : nat -> bool) : Host (Browser * nat) := fun X e s =>
  let b := interference s.2 s.1 in
  if rejects s.2 then (Rejected, (b, Datatypes.S s.2))
  else let '(o, b') := browser X e b in (o, (b', Datatypes.S s.2)).
End ReferenceHost.

(** ** Concrete hosts and events *)

(** Firefox with tab groups, and a host lacking [tabs.ungroup]. *)
Definition firefox : Capabilities :=
  {| tabGroups_TAB_GROUP_ID_NONE := Some (-1); tabs_ungroup := true |}.

Definition firefox_without_ungroup : Capabilities :=
  {| tabGroups_TAB_GROUP_ID_NONE := Some (-1); tabs_ungroup := false |}.

(** Window 10 holds tabs 1 to 5 at indices 0 to 4; tabs 2 and 3 form group
    7; tab 5 was just opened from tab 2 and joined its group. *)
Definition opened_from_group : Browser :=
  mkBrowser [mkTab 1 10 (Some (-1)) 0 None;
             mkTab 2 10 (Some 7) 1 None;
             mkTab 3 10 (Some 7) 2 None;
             mkTab 4 10 (Some (-1)) 3 None;
             mkTab 5 10 (Some 7) 4 (Some 2)]
            [10].

Definition tab5 : Tab := mkTab 5 10 (Some 7) 4 (Some 2).

(** Window 10 holds tabs 1 to 4; tab 2 alone forms group 7; tab 4 was just
    opened from it. *)
Definition opened_from_singleton : Browser :=
  mkBrowser [mkTab 1 10 (Some (-1)) 0 None;
             mkTab 2 10 (Some 7) 1 None;
             mkTab 3 10 (Some (-1)) 2 None;
             mkTab 4 10 (Some 7) 3 (Some 2)]
            [10].

Definition tab4 : Tab := mkTab 4 10 (Some 7) 3 (Some 2).

(** The user closes a tab: it leaves the table and the tabs after it in
    its window move down. *)
Definition close_tab (i : Z) (b : Browser) : Browser :=
  match tab_of (b_tabs b) i with
  | Some t =>
      mkBrowser (map (close_gap t)
                     (List.filter (fun u => negb (tab_id u =? i)) (b_tabs b)))
                (b_windows b)
  | None => b
  end.

Definition undisturbed (n : nat) (b : Browser) : Browser := b.

(** The call numbered [k] (from 0) is rejected. *)
Definition rejecting (k n : nat) : bool := Nat.eqb n k.

(** Window 10 holds tabs 1 to 5; tabs 2 and 3 form group 7; tab 5 was just
    opened from the ungrouped tab 4. *)
Definition opened_from_ungrouped : Browser :=
  mkBrowser [mkTab 1 10 (Some (-1)) 0 None;
             mkTab 2 10 (Some 7) 1 None;
             mkTab 3 10 (Some 7) 2 None;
             mkTab 4 10 (Some (-1)) 3 None;
             mkTab 5 10 (Some (-1)) 4 (Some 4)]
            [10].

Definition tab5_of_4 : Tab := mkTab 5 10 (Some (-1)) 4 (Some 4).

(** The opener is closed while the handler waits to retry: the 8th call of
    the run (numbered 7) finds tab 2 gone. *)
Definition opener_closed_during_wait (n : nat) (b : Browser) : Browser :=
  if Nat.eqb n 7 then close_tab 2 b else b.

Definition tab2 : Tab := mkTab 2 10 (Some 7) 1 None.

(** [opened_from_singleton] once tab 4 has been ungrouped. *)
Definition singleton_ungrouped : list Tab :=
  [mkTab 1 10 (Some (-1)) 0 None;
   tab2;
   mkTab 3 10 (Some (-1)) 2 None;
   mkTab 4 10 (Some (-1)) 3 (Some 2)].

(** Window 10 holds tab 5, tab 7 (alone in group 9) and the new tab 8,
    whose opener reference names a tab that no longer exists. *)
Definition opened_with_stale_opener : Browser :=
  mkBrowser [mkTab 5 10 (Some (-1)) 0 None;
             mkTab 7 10 (Some 9) 1 None;
             mkTab 8 10 (Some (-1)) 2 (Some 99)]
            [10].

Definition tab7 : Tab := mkTab 7 10 (Some 9) 1 None.

Definition tab8 : Tab := mkTab 8 10 (Some (-1)) 2 (Some 99).

(** ** A handler that only looks *)

(** The run returns normally, makes no call but fetches and waits, and
    leaves unchanged whatever the host keeps fixed across fetches and
    waits. *)
Definition untouched {S : Type} (host : Host S) (p : prog unit) (s : S) : Prop :=
  let '(c, s', tr) := run host p s in
  c = Returned tt /\
  forallb is_fetch_or_wait tr = true /\
  forall (A : Type) (obs : S -> A),
    (forall i s0, obs (host _ (TabsGet i) s0).2 = obs s0) ->
    (forall ms s0, obs (host _ (SetTimeout ms) s0).2 = obs s0) ->
    obs s' = obs s.

(** ** Locating the placement in a trace *)

Definition not_placement (c : call) : bool := negb (is_placement c).

(** The calls before the first placement move, that move, and the calls
    after it. *)
Fixpoint first_placement (tr : list call) : option (list call * call * list call) :=
  match tr with
  | [] => None
  | c :: tr' =>
      if is_placement c then Some ([], c, tr')
      else match first_placement tr' with
           | Some (pre, x, post) => Some (c :: pre, x, post)
           | None => None
           end
  end.

(** What the stabilised revision does once a placement move of tab [i] to
    window [w], after group [g], has been rejected (background.js:219-226):
    it waits [STABILIZE_MS], queries the group and then the window afresh,
    and moves the tab to the slot recomputed from the two answers; a rejected
    query ends the retry, and so does the second move, whatever its
    outcome. *)
Inductive retried (i w : Z) (g : option Z) : list call -> Prop :=
| retried_no_boundary o0 :
    retried i w g [CTimeout Stabilized.STABILIZE_MS o0; CQuery w g Rejected]
| retried_no_count o0 l :
    retried i w g [CTimeout Stabilized.STABILIZE_MS o0; CQuery w g (Resolved l);
                   CQuery w None Rejected]
| retried_move o0 l all o :
    retried i w g [CTimeout Stabilized.STABILIZE_MS o0; CQuery w g (Resolved l);
                   CQuery w None (Resolved all);
                   CMove i w (Z.min (Z.of_nat (length all)) (groupEnd l + 1)) o].

(** A run that threw did so at a rejected query, before any placement. *)
Definition thrown_at_query (c : completion unit) (tr : list call) : Prop :=
  c = Returned tt \/
  (c = Thrown /\ first_placement tr = None /\
   exists pre w g, tr = pre ++ [CQuery w g Rejected]).

(** A run of the stabilised revision: at most two placement moves; the
    first one follows the two boundary queries and goes to the slot computed
    from their answers; the run ends there when it resolves and with the
    retry when it is rejected. *)
Definition placed_or_retried (c : completion unit) (tr : list call) : Prop :=
  thrown_at_query c tr /\
  (length (List.filter is_placement tr) <= 2)%nat /\
  forall pre x post, first_placement tr = Some (pre, x, post) ->
    c = Returned tt /\
    exists pre0 i w g l0 all0 o,
      pre = pre0 ++ [CQuery w g (Resolved l0); CQuery w None (Resolved all0)] /\
      x = CMove i w (Z.min (Z.of_nat (length all0)) (groupEnd l0 + 1)) o /\
      match o with
      | Resolved _ => post = []
      | Rejected => retried i w g post
      end.

(** A run of the direct revision: at most one placement move, and nothing
    after it. *)
Definition placed_once (c : completion unit) (tr : list call) : Prop :=
  thrown_at_query c tr /\
  (length (List.filter is_placement tr) <= 1)%nat /\
  forall pre x post, first_placement tr = Some (pre, x, post) ->
    c = Returned tt /\ post = [].

(** ** Landing after the group *)

(** A tab [a] that sits in window [W] with group id [G] at a valid index. *)
Definition anchored (a W : Z) (G : option Z) (l : list Tab) : Prop :=
  exists o, tab_of l a = Some o /\ tab_windowId o = W /\ tab_groupId o = G /\
            0 <= tab_index o.

(** [e] is the greatest index among the tabs [l]. *)
Definition is_max_index (e : Z) (l : list Tab) : Prop :=
  (forall t, In t l -> tab_index t <= e) /\ exists t, In t l /\ tab_index t = e.

(** The indices of the tabs of window [w] are a permutation of
    [0 .. count - 1] (section 3 of the specification). *)
Definition dense (w : Z) (table : list Tab) : Prop :=
  Permutation (map tab_index (members w None table))
              (map Z.of_nat (seq 0 (length (members w None table)))).

(** A state the host can be in: no two tabs share an identifier and the
    indices of every window are dense. *)
Record well_formed (b : Browser) : Prop := {
  wf_ids : List.NoDup (map tab_id (b_tabs b));
  wf_dense : forall w, dense w (b_tabs b)
}.

(** The state of the reference host in which a handler computes the
    boundary, when it handles the creation of [tab] in state [b] with an
    opener in window [W]: the new tab has been brought to the tail of [W] if
    it was elsewhere (line 79 / 205) and EnsureUngrouped has run (line 83 /
    209). *)
Definition boundary_state `{Capabilities} (tab : Tab) (W : Z) (b : Browser)
  : Browser :=
  let b_r := if tab_windowId tab =? W then b
             else (browser _ (TabsMove (tab_id tab) W (-1)) b).2 in
  (run browser (ensureUngrouped (tab_id tab) W) b_r).1.2.

(** The outcome [r] of placing tab [i] after group [G] of window [W], the
    boundary being computed in state [b_b].  In [b_b] tab [i] is in [W],
    ungrouped, and [G] has members, the greatest of whose indices is [e].
    The run returned; its last three calls are the group query and the
    window query, answered from [b_b], and the resolved move of tab [i] to
    index [min (tabs in W) (e + 1)] of [W]; the final state is the one that
    move leads to from [b_b], and it is well formed; there tab [i] is in
    [W], ungrouped, at index [min (tabs in W - 1) (e + 1)]. *)
Definition placed_after `{Capabilities} (i W G : Z) (b_b : Browser)
    (r : completion unit * Browser * list call) : Prop :=
  let group := members W (Some G) (b_tabs b_b) in
  let all := members W None (b_tabs b_b) in
  let e := groupEnd group in
  let target := Z.min (Z.of_nat (length all)) (e + 1) in
  (exists u, tab_of (b_tabs b_b) i = Some u /\ tab_windowId u = W /\
             tab_groupId u = Some TAB_GROUP_ID_NONE) /\
  is_max_index e group /\
  r.1.1 = Returned tt /\
  (exists pre, r.2 = pre ++ [CQuery W (Some G) (Resolved group);
                             CQuery W None (Resolved all);
                             CMove i W target (Resolved tt)]) /\
  r.1.2 = (browser _ (TabsMove i W target) b_b).2 /\
  well_formed r.1.2 /\
  exists t',
    tab_of (b_tabs r.1.2) i = Some t' /\
    tab_windowId t' = W /\
    tab_groupId t' = Some TAB_GROUP_ID_NONE /\
    tab_index t' = Z.min (Z.of_nat (length all) - 1) (e + 1).

(** The outcome [r] of handling the creation of [tab] in state [b] of the
    reference host, the opener being in group [G] of window [W]. *)
Definition lands_after_group `{Capabilities} (tab : Tab) (W G : Z) (b : Browser)
    (r : completion unit * Browser * list call) : Prop :=
  placed_after (tab_id tab) W G (boundary_state tab W b) r.

(** Window 10 holds tabs 1, 2, 5 and 3 at indices 0 to 3; tabs 2, 5 and 3
    form group 7, the last tabs of the window; tab 5 was just opened from
    tab 2, right after it. *)
Definition opened_inside_group : Browser :=
  mkBrowser [mkTab 1 10 (Some (-1)) 0 None;
             mkTab 2 10 (Some 7) 1 None;
             mkTab 5 10 (Some 7) 2 (Some 2);
             mkTab 3 10 (Some 7) 3 None]
            [10].

Definition tab5_inside : Tab := mkTab 5 10 (Some 7) 2 (Some 2).

(** ** The activation history as a function of the events *)

(** [lastTwoActiveByWindow] after the listener of background.js:18-25
    (142-149) has handled the activations [events], pairs of a tab id and a
    window id, oldest first, starting from the empty map. *)
Definition replay (events : list (Z * Z)) : gmap Z ActiveRecord :=
  fold_left (fun m ev => onActivated ev.1 ev.2 m) events ∅.

(** The tabs activated in a window, oldest first. *)
Definition activations_in (windowId : Z) (events : list (Z * Z)) : list Z :=
  map fst (List.filter (fun ev => ev.2 =? windowId) events).

Fixpoint skip_while (P : Z -> bool) (l : list Z) : list Z :=
  match l with
  | [] => []
  | x :: l' => if P x then skip_while P l' else l
  end.

(** The record that belongs to a window whose activations were [recent],
    latest first: the latest one, and the latest one before it that was of
    another tab. *)
Definition record_of (recent : list Z) : option ActiveRecord :=
  match recent with
  | [] => None
  | c :: _ => Some (mkRec (Some c) (hd_error (skip_while (Z.eqb c) recent)))
  end.

(** ** Reading a trace *)

(** The tab a fetch delivered. *)
Definition fetched_tab (c : option call) : option Tab :=
  match c with
  | Some (CGet _ (Resolved t)) => Some t
  | _ => None
  end.

Definition is_rejected_fetch (c : call) : bool :=
  match c with
  | CGet _ Rejected => true
  | _ => false
  end.

(** A fetch of one of the tabs [ids]. *)
Definition fetches_one_of (ids : list (option Z)) (c : call) : Prop :=
  match c with
  | CGet i _ => In (Some i) ids
  | _ => False
  end.

Definition is_query (c : call) : bool :=
  match c with
  | CQuery _ _ _ => true
  | _ => false
  end.

Definition is_timeout (c : call) : bool :=
  match c with
  | CTimeout _ _ => true
  | _ => false
  end.

Definition is_remove (c : call) : bool :=
  match c with
  | CRemove _ _ => true
  | _ => false
  end.

Definition is_rejected_move (c : call) : bool :=
  match c with
  | CMove _ _ _ Rejected => true
  | _ => false
  end.

(** A call that may change the host: anything but a fetch, a query or a
    wait. *)
Definition is_effect (c : call) : bool :=
  match c with
  | CGet _ _ | CQuery _ _ _ | CTimeout _ _ => false
  | _ => true
  end.

(** The calls EnsureUngrouped may make for tab [tabId]: ungrouping that tab
    alone, moving it to the tail of a window, creating and removing a
    window. *)
Definition hop_call (tabId : Z) (c : call) : bool :=
  match c with
  | CUngroup [i] _ => i =? tabId
  | CMove i _ idx _ => (i =? tabId) && (idx =? -1)
  | CCreate _ | CRemove _ _ => true
  | _ => false
  end.

(** A call that names no tab to change but [tabId], and no delay but
    [STABILIZE_MS]. *)
Definition acts_on (tabId : Z) (c : call) : bool :=
  match c with
  | CUngroup [i] _ => i =? tabId
  | CUngroup _ _ => false
  | CMove i _ _ _ => i =? tabId
  | CTimeout ms _ => ms =? Stabilized.STABILIZE_MS
  | _ => true
  end.

(** A query of window [W], for all its tabs or for those of group [G]; a
    placement move that goes to window [W]. *)
Definition aims_at (W G : Z) (c : call) : bool :=
  match c with
  | CQuery w None _ => w =? W
  | CQuery w (Some g) _ => (w =? W) && (g =? G)
  | CMove _ w idx _ => (idx <? 0) || (w =? W)
  | _ => true
  end.

(** The calls before the first one that satisfies [P], that call, and the
    calls after it. *)
Fixpoint first_call (P : call -> bool) (tr : list call)
  : option (list call * call * list call) :=
  match tr with
  | [] => None
  | c :: tr' =>
      if P c then Some ([], c, tr')
      else match first_call P tr' with
           | Some (pre, x, post) => Some (c :: pre, x, post)
           | None => None
           end
  end.

(** An attempt to ungroup tab [tabId]: the native call, or the start of the
    window hop. *)
Definition is_ungroup_attempt (tabId : Z) (c : call) : bool :=
  match c with
  | CUngroup [i] _ => i =? tabId
  | CCreate _ => true
  | _ => false
  end.

Definition is_get (c : call) : bool :=
  match c with
  | CGet _ _ => true
  | _ => false
  end.

(** ** The two revisions side by side *)

Inductive revision : Type := direct | stabilized.

Definition moveDirectlyAfterGroup_of `{Capabilities} (v : revision)
  : Tab -> Tab -> prog unit :=
  match v with
  | direct => Direct.moveDirectlyAfterGroup
  | stabilized => Stabilized.moveDirectlyAfterGroup
  end.

Definition onCreated_of `{Capabilities} (v : revision)
  : gmap Z ActiveRecord -> option Tab -> prog unit :=
  match v with
  | direct => Direct.onCreated
  | stabilized => Stabilized.onCreated
  end.

(** The waits a revision may make in one run. *)
Definition waits_allowed (v : revision) : nat :=
  match v with
  | direct => 0
  | stabilized => 2
  end.

(** ** A host on which nothing else happens *)

(** Waits and fetches leave the host as it is, and a fetch delivers the tab
    asked for; queries resolve and leave the host as it is; a move that is
    rejected leaves the host as it is and would be rejected for any index. *)
Record quiescent {S : Type} (host : Host S) : Prop := {
  quiet_wait : forall ms s, (host _ (SetTimeout ms) s).2 = s;
  quiet_get : forall i s,
    (host _ (TabsGet i) s).2 = s /\
    forall t, (host _ (TabsGet i) s).1 = Resolved t -> tab_id t = i;
  quiet_query : forall w g s, exists l, host _ (TabsQuery w g) s = (Resolved l, s);
  quiet_move : forall i w idx s,
    (host _ (TabsMove i w idx) s).1 = Rejected ->
    forall idx', host _ (TabsMove i w idx') s = (Rejected, s)
}.

(** The state in which a revision re-fetches the opener, when the resolver
    has left the host in state [s]. *)
Definition refetch_state {S : Type} (host : Host S) (v : revision) (s : S) : S :=
  match v with
  | direct => s
  | stabilized => (host _ (SetTimeout Stabilized.STABILIZE_MS) s).2
  end.

(** The opener is closed right after it has been resolved: the second call
    of the run (numbered 1) finds tab 2 gone. *)
Definition opener_closed_after_resolution (n : nat) (b : Browser) : Browser :=
  if Nat.eqb n 1 then close_tab 2 b else b.

(** The opener, the only member of its group, is closed just before the
    group is queried: the 4th call of a run of the direct revision (numbered
    3) finds tab 2 gone. *)
Definition opener_closed_before_query (n : nat) (b : Browser) : Browser :=
  if Nat.eqb n 3 then close_tab 2 b else b.

(** No call is rejected outright. *)
Definition accepting (n : nat) : bool := false.

(** Window 10 holds tab 1 and tab 2, which alone forms group 7; the new tab
    9 was opened from tab 2 into window 20. *)
Definition opened_in_other_window : Browser :=
  mkBrowser [mkTab 1 10 (Some (-1)) 0 None;
             mkTab 2 10 (Some 7) 1 None;
             mkTab 9 20 (Some (-1)) 0 (Some 2)]
            [10; 20].

Definition tab9 : Tab := mkTab 9 20 (Some (-1)) 0 (Some 2).

(** ** Proof automation *)

(** Executing a handler symbolically against [host]: one case for each way
    the host may answer the next call and for each test the script makes. *)
Ltac crunch host :=
  repeat (simpl;
          match goal with
          | |- context [host ?X (SetTimeout ?ms) ?s] =>
              destruct (host X (SetTimeout ms) s) as [? ?] eqn:?
          | |- context [host ?X ?e ?s] =>
              destruct (host X e s) as [[?|] ?] eqn:?
          | |- context [if ?b then _ else _] => destruct b eqn:?
          | |- context [match ?x with Some _ => _ | None => _ end] =>
              destruct x eqn:?
          end);
  repeat match goal with u : unit |- _ => destruct u end.

(** Finding the prefix of a trace that makes [tac] succeed. *)
Ltac split_pre tac :=
  first [ exists (@nil call); tac
        | eexists [_]; tac
        | eexists [_; _]; tac
        | eexists [_; _; _]; tac
        | eexists [_; _; _; _]; tac
        | eexists [_; _; _; _; _]; tac
        | eexists [_; _; _; _; _; _]; tac
        | eexists [_; _; _; _; _; _; _]; tac
        | eexists [_; _; _; _; _; _; _; _]; tac
        | eexists [_; _; _; _; _; _; _; _; _]; tac
        | eexists [_; _; _; _; _; _; _; _; _; _]; tac ].

(** One step of a run, leaving the host's answer and the script's own
    functions folded. *)
Ltac step :=
  cbn [run bind try_catch await wait mret prog_ret mbind prog_bind log fst snd].

(** * Properties *)

(** ** Running composite programs *)

Section Run.
Context {S : Type} (host : Host S).

Lemma run_bind {A B : Type} (p : prog A) (f : A -> prog B) (s : S) :
  run host (bind p f) s =
  let '(c, s1, tr1) := run host p s in
  match c with
  | Returned a => let '(c2, s2, tr2) := run host (f a) s1 in (c2, s2, tr1 ++ tr2)
  | Thrown => (Thrown, s1, tr1)
  end.
Proof.
  revert s. induction p as [a| |X e k IH]; intros s; simpl.
  - destruct (run host (f a) s) as [[c2 s2] tr2]. reflexivity.
  - reflexivity.
  - destruct (host X e s) as [o s1]. rewrite IH.
    destruct (run host (k o) s1) as [[c s2] tr]. destruct c as [a|].
    + destruct (run host (f a) s2) as [[c2 s3] tr2]. reflexivity.
    + reflexivity.
Qed.

Lemma run_try_catch {R : Type} (p h : prog R) (s : S) :
  run host (try_catch p h) s =
  let '(c, s1, tr1) := run host p s in
  match c with
  | Returned r => (Returned r, s1, tr1)
  | Thrown => let '(c2, s2, tr2) := run host h s1 in (c2, s2, tr1 ++ tr2)
  end.
Proof.
  revert s. induction p as [a| |X e k IH]; intros s; simpl.
  - reflexivity.
  - destruct (run host h s) as [[c2 s2] tr2]. reflexivity.
  - destruct (host X e s) as [o s1]. rewrite IH.
    destruct (run host (k o) s1) as [[c s2] tr]. destruct c as [a|].
    + reflexivity.
    + destruct (run host h s2) as [[c2 s3] tr2]. reflexivity.
Qed.
End Run.

(** ** Active-tab history *)

Lemma is_id_true (v : option Z) (n : Z) : is_id v n = true <-> v = Some n.
Proof.
  destruct v as [c|]; simpl.
  - rewrite Z.eqb_eq. split; congruence.
  - split; discriminate.
Qed.

Lemma distinct_history_empty : distinct_history ∅.
Proof. intros w rec c p Hl. rewrite lookup_empty in Hl. discriminate. Qed.

Lemma onActivated_distinct (tabId windowId : Z) (m : gmap Z ActiveRecord) :
  distinct_history m -> distinct_history (onActivated tabId windowId m).
Proof.
  intros Hinv w rec c p Hl Hc Hp. unfold onActivated in Hl.
  destruct (is_id _ tabId) eqn:E; simpl in Hl; [ eauto | ].
  destruct (decide (windowId = w)) as [->|Hne].
  - rewrite lookup_insert_eq in Hl. injection Hl as <-. simpl in *.
    injection Hc as <-. intros ->.
    apply is_id_true in Hp. congruence.
  - rewrite lookup_insert_ne in Hl by assumption. eauto.
Qed.

(** Whatever activations a window has seen, starting from the empty map. *)
Lemma distinct_history_reachable (events : list (Z * Z)) :
  distinct_history
    (fold_left (fun m ev => onActivated ev.1 ev.2 m) events ∅).
Proof.
  assert (G : forall m, distinct_history m ->
    distinct_history (fold_left (fun m ev => onActivated ev.1 ev.2 m) events m)).
  { induction events as [|ev events IH]; intros m Hm; simpl; [ assumption | ].
    apply IH, onActivated_distinct, Hm. }
  apply G, distinct_history_empty.
Qed.

(** C8.  The activation listener leaves the map alone when the activated tab
    is already the window's [current]; otherwise it stores the record with
    the old [current] shifted into [previous] and the new id as [current],
    for that window only.  Either way, if [current] and [previous] differed
    in every populated record before the event, they do after it. *)
Theorem history_update_keeps_current_distinct
    (tabId windowId : Z) (m : gmap Z ActiveRecord) :
  distinct_history m ->
  let rec := default (mkRec None None) (m !! windowId) in
  let m' := onActivated tabId windowId m in
  distinct_history m' /\
  (current rec = Some tabId -> m' = m) /\
  (current rec <> Some tabId ->
     m' !! windowId = Some (mkRec (Some tabId) (current rec)) /\
     forall w, w <> windowId -> m' !! w = m !! w).
Proof.
  intros Hinv rec m'. split; [ apply onActivated_distinct, Hinv | ].
  subst m'. unfold onActivated. fold rec. split.
  - intros Hc. apply is_id_true in Hc. rewrite Hc. reflexivity.
  - intros Hc. destruct (is_id (current rec) tabId) eqn:E.
    + apply is_id_true in E. contradiction.
    + simpl. split; [ apply lookup_insert_eq | ].
      intros w Hw. apply lookup_insert_ne. congruence.
Qed.

Lemma history_update_witness :
  let m := {[ 1 := mkRec (Some 5) (Some 3) ]} : gmap Z ActiveRecord in
  distinct_history m /\
  distinct_history (onActivated 7 1 m) /\
  onActivated 7 1 m !! 1 = Some (mkRec (Some 7) (Some 5)).
Proof.
  intros m.
  assert (Hm : distinct_history m).
  { intros w rec c p Hl Hc Hp. subst m.
    apply lookup_singleton_Some in Hl as [_ <-]. simpl in *. congruence. }
  split; [ exact Hm | ].
  pose proof (history_update_keeps_current_distinct 7 1 m Hm) as [H1 [_ H3]].
  split; [ exact H1 | ].
  apply H3. subst m. rewrite lookup_singleton_eq. simpl. congruence.
Defined.

(** ** Group boundary *)

Lemma raise_end_max (end_ : Z) (t : Tab) :
  raise_end end_ t = Z.max end_ (tab_index t).
Proof. unfold raise_end. destruct (Z.gtb_spec (tab_index t) end_); lia. Qed.

Lemma fold_raise_end_perm (l l' : list Tab) :
  Permutation l l' ->
  forall a, fold_left raise_end l a = fold_left raise_end l' a.
Proof.
  induction 1 as [|x l l' _ IH|x y l|l l' l'' _ IH1 _ IH2]; intros a; simpl.
  - reflexivity.
  - apply IH.
  - f_equal. rewrite !raise_end_max. lia.
  - rewrite IH1. apply IH2.
Qed.

Lemma fold_raise_end_bounds (l : list Tab) (a : Z) :
  a <= fold_left raise_end l a /\
  (forall t, In t l -> tab_index t <= fold_left raise_end l a) /\
  (fold_left raise_end l a = a \/
   exists t, In t l /\ tab_index t = fold_left raise_end l a).
Proof.
  revert a. induction l as [|x l IH]; intros a; simpl.
  - split; [ lia | ]. split; [ intros t [] | left; reflexivity ].
  - destruct (IH (raise_end a x)) as (Hge & Hall & Hin).
    pose proof (raise_end_max a x) as Hx.
    split; [ lia | ]. split.
    + intros t [<-|Ht]; [ lia | auto ].
    + destruct Hin as [Heq|(t & Ht & Heq)].
      * assert (Hc : raise_end a x = a \/ raise_end a x = tab_index x)
          by (unfold raise_end; destruct (tab_index x >? a); auto).
        destruct Hc as [Hc|Hc]; [ left | right; exists x; split; [ left | ] ];
          congruence.
      * right. exists t. auto.
Qed.

Lemma groupEnd_perm (l l' : list Tab) :
  Permutation l l' -> groupEnd l = groupEnd l'.
Proof. intros HP. apply (fold_raise_end_perm _ _ HP). Qed.

Lemma groupEnd_ge (l : list Tab) : -1 <= groupEnd l.
Proof. apply (fold_raise_end_bounds l (-1)). Qed.

(** C4.  When the host answers the boundary calculator's query with the
    tabs of the window whose group id matches, in any order, the calculator
    returns -1 if there is no such tab and otherwise the greatest index
    among them: an index of one of them that none of them exceeds. *)
Theorem lastIndexOfGroup_returns_max_index
    {S : Type} (host : Host S) (s s' : S)
    (groupId : option Z) (windowId : Z) (groupTabs table : list Tab) :
  host _ (TabsQuery windowId groupId) s = (Resolved groupTabs, s') ->
  Permutation groupTabs (members windowId groupId table) ->
  (forall t, In t table -> 0 <= tab_index t) ->
  exists end_,
    run host (lastIndexOfGroup groupId windowId) s =
      (Returned end_, s', [CQuery windowId groupId (Resolved groupTabs)]) /\
    (members windowId groupId table = [] -> end_ = -1) /\
    (forall t, In t (members windowId groupId table) -> tab_index t <= end_) /\
    (members windowId groupId table <> [] ->
       exists t, In t (members windowId groupId table) /\ tab_index t = end_).
Proof.
  intros Hq HP Hidx. exists (groupEnd groupTabs). split.
  - simpl. rewrite Hq. reflexivity.
  - rewrite (groupEnd_perm _ _ HP). unfold groupEnd.
    destruct (fold_raise_end_bounds (members windowId groupId table) (-1))
      as (_ & Hall & Hin).
    split; [ intros ->; reflexivity | ]. split; [ exact Hall | ].
    intros Hne. destruct Hin as [Heq|Hin]; [ | exact Hin ].
    destruct (members windowId groupId table) as [|t l] eqn:E; [ congruence | ].
    exfalso. assert (Ht : In t table).
    { assert (In t (members windowId groupId table)) as Hm
        by (rewrite E; left; reflexivity).
      apply filter_In in Hm. tauto. }
    specialize (Hidx t Ht). specialize (Hall t (or_introl eq_refl)). lia.
Qed.

Lemma lastIndexOfGroup_witness :
  exists end_,
    run (@browser firefox) (lastIndexOfGroup (Some 7) 10) opened_from_group =
      (Returned end_, opened_from_group,
       [CQuery 10 (Some 7)
          (Resolved [mkTab 2 10 (Some 7) 1 None; mkTab 3 10 (Some 7) 2 None;
                     mkTab 5 10 (Some 7) 4 (Some 2)])]) /\
    (members 10 (Some 7) (b_tabs opened_from_group) = [] -> end_ = -1) /\
    (forall t, In t (members 10 (Some 7) (b_tabs opened_from_group)) ->
               tab_index t <= end_) /\
    (members 10 (Some 7) (b_tabs opened_from_group) <> [] ->
       exists t, In t (members 10 (Some 7) (b_tabs opened_from_group)) /\
                 tab_index t = end_).
Proof.
  apply (lastIndexOfGroup_returns_max_index (@browser firefox)
           opened_from_group opened_from_group (Some 7) 10 _
           (b_tabs opened_from_group)).
  - reflexivity.
  - apply Permutation_refl.
  - intros t Ht. simpl in Ht.
    repeat (destruct Ht as [<-|Ht]; [ simpl; lia | ]). destruct Ht.
Defined.

(** ** Opener resolution *)

Lemma candidateId_historyCandidate (m : gmap Z ActiveRecord) (newTab : Tab) :
  candidateId m newTab = historyCandidate m newTab.
Proof.
  unfold candidateId, historyCandidate.
  destruct (m !! tab_windowId newTab) as [rec|]; [ | reflexivity ].
  destruct (current rec) as [c|] eqn:Ec.
  - destruct (Z.eqb_spec c (tab_id newTab)) as [->|Hne].
    + rewrite decide_True; reflexivity.
    + rewrite decide_False; congruence.
  - rewrite decide_False; congruence.
Qed.

(** C3.  The resolver returns what section 4.2 prescribes, and leaves the
    host in the state those fetches lead to: the explicitly referenced
    opener when the reference is present and its fetch resolves; otherwise
    the fetched history candidate, which is [current] when that differs from
    the new tab's id and [previous] when it equals it; and none when no
    candidate resolves.  It never throws. *)
Theorem getOpenerForNewTab_follows_resolution_order
    {S : Type} (host : Host S) (m : gmap Z ActiveRecord) (newTab : Tab) (s : S) :
  (run host (getOpenerForNewTab m newTab) s).1 =
    (Returned (resolveOpener host m newTab s).1, (resolveOpener host m newTab s).2).
Proof.
  unfold getOpenerForNewTab, resolveOpener, fetchTab.
  rewrite <- candidateId_historyCandidate.
  destruct (tab_openerTabId newTab) as [o|]; simpl.
  - destruct (host Tab (TabsGet o) s) as [[t|] s1]; simpl; [ reflexivity | ].
    destruct (candidateId m newTab) as [c|]; simpl; [ | reflexivity ].
    destruct (host Tab (TabsGet c) s1) as [[t|] s2]; reflexivity.
  - destruct (candidateId m newTab) as [c|]; simpl; [ | reflexivity ].
    destruct (host Tab (TabsGet c) s) as [[t|] s2]; reflexivity.
Qed.

(** ** EnsureUngrouped: which calls it makes *)

Section EnsureUngrouped.
Context {S : Type} `{Capabilities} (host : Host S).

Lemma run_windowHop (tabId windowId : Z) (s : S) :
  run host
    (try_catch
       (tmp ← await WindowsCreate;
        let tmpId := win_id tmp in
        _ ← await (TabsMove tabId tmpId (-1));
        _ ← await (TabsMove tabId windowId (-1));
        try_catch (await (WindowsRemove tmpId)) (mret tt))
       (mret tt)) s =
  (Returned tt, (windowHop host tabId windowId s).1,
   (windowHop host tabId windowId s).2).
Proof.
  unfold windowHop. simpl.
  destruct (host Window WindowsCreate s) as [[tmp|] s1]; simpl; [ | reflexivity ].
  destruct (host unit (TabsMove tabId (win_id tmp) (-1)) s1) as [[[]|] s2];
    simpl; [ | reflexivity ].
  destruct (host unit (TabsMove tabId windowId (-1)) s2) as [[[]|] s3];
    simpl; [ | reflexivity ].
  destruct (host unit (WindowsRemove (win_id tmp)) s3) as [[[]|] s4];
    reflexivity.
Qed.

Lemma ensureUngrouped_native (tabId windowId : Z) (s s1 : S) :
  tabs_ungroup = true ->
  host _ (TabsUngroup [tabId]) s = (Resolved tt, s1) ->
  run host (ensureUngrouped tabId windowId) s =
    (Returned tt, s1, [CUngroup [tabId] (Resolved tt)]).
Proof.
  intros Hcap Hu. unfold ensureUngrouped. rewrite Hcap. simpl. rewrite Hu.
  reflexivity.
Qed.

Lemma ensureUngrouped_absent (tabId windowId : Z) (s : S) :
  tabs_ungroup = false ->
  run host (ensureUngrouped tabId windowId) s =
    (Returned tt, (windowHop host tabId windowId s).1,
     (windowHop host tabId windowId s).2).
Proof.
  intros Hcap. unfold ensureUngrouped. rewrite Hcap.
  apply run_windowHop.
Qed.

Lemma ensureUngrouped_failed (tabId windowId : Z) (s s1 : S) :
  tabs_ungroup = true ->
  host _ (TabsUngroup [tabId]) s = (Rejected, s1) ->
  run host (ensureUngrouped tabId windowId) s =
    (Returned tt, (windowHop host tabId windowId s1).1,
     CUngroup [tabId] Rejected :: (windowHop host tabId windowId s1).2).
Proof.
  intros Hcap Hu. unfold ensureUngrouped, windowHop. rewrite Hcap.
  simpl. rewrite Hu. simpl.
  destruct (host Window WindowsCreate s1) as [[tmp|] s2]; simpl; [ | reflexivity ].
  destruct (host unit (TabsMove tabId (win_id tmp) (-1)) s2) as [[[]|] s3];
    simpl; [ | reflexivity ].
  destruct (host unit (TabsMove tabId windowId (-1)) s3) as [[[]|] s4];
    simpl; [ | reflexivity ].
  destruct (host unit (WindowsRemove (win_id tmp)) s4) as [[[]|] s5];
    reflexivity.
Qed.

Lemma windowHop_starts_with_create (tabId windowId : Z) (s : S) :
  exists rest,
    (windowHop host tabId windowId s).2 =
      CCreate (host _ WindowsCreate s).1 :: rest.
Proof.
  unfold windowHop.
  destruct (host Window WindowsCreate s) as [[tmp|] s1]; simpl; [ | eauto ].
  destruct (host unit (TabsMove tabId (win_id tmp) (-1)) s1) as [[u|] s2];
    [ | eauto ].
  destruct (host unit (TabsMove tabId windowId (-1)) s2) as [[u'|] s3];
    [ | eauto ].
  destruct (host unit (WindowsRemove (win_id tmp)) s3) as [o s4]. eauto.
Qed.
End EnsureUngrouped.

(** C10.  When [tabs.ungroup] is present and its call is rejected,
    EnsureUngrouped goes on to the window hop from the state that call left:
    it returns normally, and after the failed ungroup its calls are those of
    the hop, the first of which creates the auxiliary window. *)
Theorem ensureUngrouped_hops_after_failed_ungroup
    {S : Type} `{Capabilities} (host : Host S) (tabId windowId : Z) (s s1 : S) :
  tabs_ungroup = true ->
  host _ (TabsUngroup [tabId]) s = (Rejected, s1) ->
  run host (ensureUngrouped tabId windowId) s =
    (Returned tt, (windowHop host tabId windowId s1).1,
     CUngroup [tabId] Rejected :: (windowHop host tabId windowId s1).2) /\
  exists rest,
    (windowHop host tabId windowId s1).2 =
      CCreate (host _ WindowsCreate s1).1 :: rest.
Proof.
  intros Hcap Hu. split.
  - apply ensureUngrouped_failed; assumption.
  - apply windowHop_starts_with_create.
Qed.

Lemma ensureUngrouped_hops_witness :
  run (@scripted firefox undisturbed (rejecting 0))
      (@ensureUngrouped firefox 5 10) (opened_from_group, 0%nat) =
    (Returned tt,
     (mkBrowser [mkTab 1 10 (Some (-1)) 0 None;
                 mkTab 2 10 (Some 7) 1 None;
                 mkTab 3 10 (Some 7) 2 None;
                 mkTab 4 10 (Some (-1)) 3 None;
                 mkTab 5 10 (Some (-1)) 4 (Some 2)] [10], 5%nat),
     [CUngroup [5] Rejected;
      CCreate (Resolved (mkWindow 11));
      CMove 5 11 (-1) (Resolved tt);
      CMove 5 10 (-1) (Resolved tt);
      CRemove 11 (Resolved tt)]).
Proof.
  refine (eq_trans (proj1 (@ensureUngrouped_hops_after_failed_ungroup _ firefox
            (@scripted firefox undisturbed (rejecting 0)) 5 10
            (opened_from_group, 0%nat) (opened_from_group, 1%nat) _ _)) _);
    reflexivity.
Defined.

(** ** Handling a tab whose opener is not grouped *)

Section Untouched.
Context {S : Type} `{Capabilities} (host : Host S).

Lemma run_reads_preserve {A R : Type} (obs : S -> A) :
  (forall i s0, obs (host _ (TabsGet i) s0).2 = obs s0) ->
  (forall ms s0, obs (host _ (SetTimeout ms) s0).2 = obs s0) ->
  forall (p : prog R) (s : S),
    forallb is_fetch_or_wait (run host p s).2 = true ->
    obs (run host p s).1.2 = obs s.
Proof.
  intros Hget Hwait. induction p as [r| |X e k IH]; intros s; simpl; auto.
  destruct (host X e s) as [o s1] eqn:E.
  specialize (IH o s1). destruct (run host (k o) s1) as [[c s2] tr].
  simpl in *. intros Htr. apply andb_prop in Htr as [He Htr].
  rewrite (IH Htr).
  destruct e; simpl in He; try discriminate.
  - specialize (Hget tabId s). rewrite E in Hget. exact Hget.
  - specialize (Hwait ms s). rewrite E in Hwait. exact Hwait.
Qed.

Lemma getOpenerForNewTab_only_fetches (m : gmap Z ActiveRecord) (newTab : Tab) (s : S) :
  forallb is_fetch_or_wait (run host (getOpenerForNewTab m newTab) s).2 = true.
Proof.
  unfold getOpenerForNewTab.
  destruct (tab_openerTabId newTab) as [o|]; simpl.
  - destruct (host Tab (TabsGet o) s) as [[t|] s1]; simpl; [ reflexivity | ].
    destruct (candidateId m newTab) as [c|]; simpl; [ | reflexivity ].
    destruct (host Tab (TabsGet c) s1) as [[t|] s2]; reflexivity.
  - destruct (candidateId m newTab) as [c|]; simpl; [ | reflexivity ].
    destruct (host Tab (TabsGet c) s) as [[t|] s2]; reflexivity.
Qed.

Lemma untouched_intro (p : prog unit) (s : S) :
  (run host p s).1.1 = Returned tt ->
  forallb is_fetch_or_wait (run host p s).2 = true ->
  untouched host p s.
Proof.
  intros Hc Htr. unfold untouched.
  destruct (run host p s) as [[c s'] tr] eqn:E. simpl in *.
  split; [ exact Hc | ]. split; [ exact Htr | ].
  intros A obs Hget Hwait.
  pose proof (run_reads_preserve obs Hget Hwait p s) as Hp.
  rewrite E in Hp. apply Hp. exact Htr.
Qed.
End Untouched.

(** C2.  Let the resolver return [opener].  If that snapshot is not
    grouped, or the record the orchestrator fetches for it afterwards is not
    grouped, then the handler (of either revision) returns having made no
    call but fetches and waits: no move, no ungroup, no window is created or
    removed, and whatever the host does not change on a fetch or a wait (the
    new tab's window and index among it) is as before the event. *)
Theorem ungrouped_opener_leaves_tab_untouched
    {S : Type} `{Capabilities} (host : Host S) (m : gmap Z ActiveRecord)
    (tab opener : Tab) (s s0 : S) (tr0 : list call) :
  run host (getOpenerForNewTab m tab) s = (Returned (Some opener), s0, tr0) ->
  (isGrouped (Some opener) = false \/
   (exists fresh s1,
      host _ (TabsGet (tab_id opener)) s0 = (Resolved fresh, s1) /\
      isGrouped (Some fresh) = false) ->
   untouched host (Direct.onCreated m (Some tab)) s) /\
  (isGrouped (Some opener) = false \/
   (exists fresh s1,
      host _ (TabsGet (tab_id opener))
           (host _ (SetTimeout Stabilized.STABILIZE_MS) s0).2 =
        (Resolved fresh, s1) /\
      isGrouped (Some fresh) = false) ->
   untouched host (Stabilized.onCreated m (Some tab)) s).
Proof.
  intros Hrun.
  pose proof (getOpenerForNewTab_only_fetches host m tab s) as Htr0.
  rewrite Hrun in Htr0. simpl in Htr0.
  split; intros Hcase; apply untouched_intro.
  - unfold Direct.onCreated, mbind, prog_bind. rewrite run_bind, Hrun.
    destruct (isGrouped (Some opener)) eqn:Eg; simpl; [ | reflexivity ].
    destruct Hcase as [Hc|(fresh & s1 & Hget & Hf)]; [ discriminate | ].
    unfold isGrouped in Hf. rewrite Hget. simpl. rewrite Hf. reflexivity.
  - unfold Direct.onCreated, mbind, prog_bind. rewrite run_bind, Hrun.
    destruct (isGrouped (Some opener)) eqn:Eg; simpl;
      [ | rewrite forallb_app, Htr0; reflexivity ].
    destruct Hcase as [Hc|(fresh & s1 & Hget & Hf)]; [ discriminate | ].
    unfold isGrouped in Hf. rewrite Hget. simpl. rewrite Hf. simpl.
    rewrite forallb_app, Htr0. reflexivity.
  - unfold Stabilized.onCreated, mbind, prog_bind. rewrite run_bind, Hrun.
    destruct (isGrouped (Some opener)) eqn:Eg; simpl; [ | reflexivity ].
    destruct Hcase as [Hc|(fresh & s1 & Hget & Hf)]; [ discriminate | ].
    destruct (host unit (SetTimeout Stabilized.STABILIZE_MS) s0) as [o s0'].
    simpl in Hget. unfold isGrouped in Hf. rewrite Hget. simpl. rewrite Hf.
    reflexivity.
  - unfold Stabilized.onCreated, mbind, prog_bind. rewrite run_bind, Hrun.
    destruct (isGrouped (Some opener)) eqn:Eg; simpl;
      [ | rewrite forallb_app, Htr0; reflexivity ].
    destruct Hcase as [Hc|(fresh & s1 & Hget & Hf)]; [ discriminate | ].
    destruct (host unit (SetTimeout Stabilized.STABILIZE_MS) s0) as [o s0'].
    simpl in Hget. unfold isGrouped in Hf. rewrite Hget. simpl. rewrite Hf.
    simpl. rewrite forallb_app, Htr0. reflexivity.
Qed.

Lemma ungrouped_opener_witness :
  untouched (@browser firefox) (@Direct.onCreated firefox ∅ (Some tab5_of_4))
            opened_from_ungrouped /\
  untouched (@browser firefox) (@Stabilized.onCreated firefox ∅ (Some tab5_of_4))
            opened_from_ungrouped.
Proof.
  pose proof (@ungrouped_opener_leaves_tab_untouched Browser firefox
                (@browser firefox) ∅ tab5_of_4
                (mkTab 4 10 (Some (-1)) 3 None)
                opened_from_ungrouped opened_from_ungrouped
                [CGet 4 (Resolved (mkTab 4 10 (Some (-1)) 3 None))] eq_refl)
    as [HD HS].
  split; [ apply HD | apply HS ]; left; reflexivity.
Defined.

(** ** The placement move and its retry *)

Lemma placement_slot_nonneg (n : nat) (l : list Tab) :
  (0 <=? Z.min (Z.of_nat n) (groupEnd l + 1)) = true.
Proof. pose proof (groupEnd_ge l). apply Z.leb_le. lia. Qed.

Lemma fetches_are_not_placements (tr : list call) :
  forallb is_fetch_or_wait tr = true -> forallb not_placement tr = true.
Proof.
  induction tr as [|c tr IH]; simpl; [ reflexivity | ].
  intros Hc. apply andb_prop in Hc as [Hc Htr].
  rewrite (IH Htr). destruct c; try discriminate; reflexivity.
Qed.

Lemma filter_without_placement (tr : list call) :
  forallb not_placement tr = true -> List.filter is_placement tr = [].
Proof.
  induction tr as [|c tr IH]; simpl; [ reflexivity | ].
  intros Hc. apply andb_prop in Hc as [Hc Htr]. unfold not_placement in Hc.
  destruct (is_placement c); [ discriminate | auto ].
Qed.

Lemma first_placement_app (tr0 tr : list call) :
  forallb not_placement tr0 = true ->
  first_placement (tr0 ++ tr) =
    match first_placement tr with
    | Some (pre, x, post) => Some (tr0 ++ pre, x, post)
    | None => None
    end.
Proof.
  induction tr0 as [|c tr0 IH]; simpl.
  - intros _. destruct (first_placement tr) as [[[pre x] post]|]; reflexivity.
  - intros Hc. apply andb_prop in Hc as [Hc Htr]. unfold not_placement in Hc.
    destruct (is_placement c); [ discriminate | ]. rewrite (IH Htr).
    destruct (first_placement tr) as [[[pre x] post]|]; reflexivity.
Qed.

Lemma first_placement_split (pre : list call) (x : call) (post : list call) :
  forallb not_placement pre = true ->
  is_placement x = true ->
  first_placement (pre ++ x :: post) = Some (pre, x, post).
Proof.
  intros Hpre Hx. rewrite (first_placement_app _ _ Hpre). simpl. rewrite Hx.
  rewrite app_nil_r. reflexivity.
Qed.

Lemma thrown_at_query_prepend (tr0 tr : list call) (c : completion unit) :
  forallb not_placement tr0 = true ->
  thrown_at_query c tr -> thrown_at_query c (tr0 ++ tr).
Proof.
  intros H0 [Hc|(Hc & Hnone & pre & w & g & ->)]; [ left; exact Hc | right ].
  split; [ exact Hc | ]. split.
  - rewrite (first_placement_app _ _ H0), Hnone. reflexivity.
  - exists (tr0 ++ pre), w, g. apply app_assoc.
Qed.

Lemma placed_or_retried_prepend (tr0 tr : list call) (c : completion unit) :
  forallb not_placement tr0 = true ->
  placed_or_retried c tr -> placed_or_retried c (tr0 ++ tr).
Proof.
  intros H0 (Hthrow & Hlen & Hshape).
  split; [ apply thrown_at_query_prepend; assumption | ]. split.
  - rewrite List.filter_app, (filter_without_placement _ H0). exact Hlen.
  - intros pre x post. rewrite (first_placement_app _ _ H0).
    destruct (first_placement tr) as [[[pre1 x1] post1]|]; [ | discriminate ].
    intros [= <- <- <-].
    destruct (Hshape _ _ _ eq_refl)
      as (Hc & pre0 & i & w & g & l0 & all0 & o & -> & Hx & Ho).
    split; [ exact Hc | ].
    exists (tr0 ++ pre0), i, w, g, l0, all0, o.
    rewrite app_assoc. auto.
Qed.

Lemma placed_once_prepend (tr0 tr : list call) (c : completion unit) :
  forallb not_placement tr0 = true ->
  placed_once c tr -> placed_once c (tr0 ++ tr).
Proof.
  intros H0 (Hthrow & Hlen & Hshape).
  split; [ apply thrown_at_query_prepend; assumption | ]. split.
  - rewrite List.filter_app, (filter_without_placement _ H0). exact Hlen.
  - intros pre x post. rewrite (first_placement_app _ _ H0).
    destruct (first_placement tr) as [[[pre1 x1] post1]|]; [ | discriminate ].
    intros [= <- <- <-]. eauto.
Qed.

Section Placement.
Context {S : Type} `{Capabilities} (host : Host S).

Local Arguments Z.min : simpl never.
Local Arguments groupEnd : simpl never.
Local Arguments Z.of_nat : simpl never.
Local Arguments Z.add : simpl never.

Lemma stabilized_move_shape (newTab opener : Tab) (s s' : S)
    (c : completion unit) (tr : list call) :
  run host (Stabilized.moveDirectlyAfterGroup newTab opener) s = (c, s', tr) ->
  placed_or_retried c tr.
Proof.
  unfold Stabilized.moveDirectlyAfterGroup, ensureUngrouped, lastIndexOfGroup.
  crunch host.
  all: intros [= <- <- <-]; unfold placed_or_retried, thrown_at_query; simpl.
  all: rewrite ?placement_slot_nonneg; simpl.
  all: split; [ first [ left; reflexivity | right; do 2 (split; [ reflexivity | ]);
                        split_pre ltac:(solve [ do 2 eexists; reflexivity ]) ] | ].
  all: split; [ lia | intros pre y post Hf;
         first [ discriminate | injection Hf as <- <- <- ] ].
  all: split; [ reflexivity | ].
  all: split_pre ltac:(solve [ do 6 eexists; split; [ reflexivity | ];
                               split; [ reflexivity | ];
                               first [ reflexivity | econstructor ] ]).
Qed.

Lemma direct_move_shape (newTab opener : Tab) (s s' : S)
    (c : completion unit) (tr : list call) :
  run host (Direct.moveDirectlyAfterGroup newTab opener) s = (c, s', tr) ->
  placed_once c tr.
Proof.
  unfold Direct.moveDirectlyAfterGroup, ensureUngrouped, lastIndexOfGroup.
  crunch host.
  all: intros [= <- <- <-]; unfold placed_once, thrown_at_query; simpl.
  all: rewrite ?placement_slot_nonneg; simpl.
  all: split; [ first [ left; reflexivity | right; do 2 (split; [ reflexivity | ]);
                        split_pre ltac:(solve [ do 2 eexists; reflexivity ]) ] | ].
  all: split; [ lia | intros pre y post Hf;
         first [ discriminate | injection Hf as <- <- <-; auto ] ].
Qed.

Lemma getOpenerForNewTab_returns (m : gmap Z ActiveRecord) (newTab : Tab) (s : S) :
  exists r, (run host (getOpenerForNewTab m newTab) s).1.1 = Returned r.
Proof.
  unfold getOpenerForNewTab.
  destruct (tab_openerTabId newTab) as [o|]; simpl.
  - destruct (host Tab (TabsGet o) s) as [[t|] s1]; simpl; [ eauto | ].
    destruct (candidateId m newTab) as [c|]; simpl; [ | eauto ].
    destruct (host Tab (TabsGet c) s1) as [[t|] s2]; simpl; eauto.
  - destruct (candidateId m newTab) as [c|]; simpl; [ | eauto ].
    destruct (host Tab (TabsGet c) s) as [[t|] s2]; simpl; eauto.
Qed.

Lemma stabilized_onCreated_shape (m : gmap Z ActiveRecord) (tab : option Tab)
    (s s' : S) (c : completion unit) (tr : list call) :
  run host (Stabilized.onCreated m tab) s = (c, s', tr) ->
  placed_or_retried c tr.
Proof.
  destruct tab as [tab|].
  2: { intros [= <- <- <-].
       split; [ left; reflexivity | split; [ simpl; lia | discriminate ] ]. }
  unfold Stabilized.onCreated, mbind, prog_bind. rewrite run_bind.
  pose proof (getOpenerForNewTab_only_fetches host m tab s) as H0.
  apply fetches_are_not_placements in H0.
  destruct (getOpenerForNewTab_returns m tab s) as [r Hr].
  destruct (run host (getOpenerForNewTab m tab) s) as [[c0 s0] tr0].
  simpl in H0, Hr. subst c0.
  assert (Hquiet : placed_or_retried (Returned tt) (tr0 ++ [])).
  { apply placed_or_retried_prepend; [ exact H0 | ].
    split; [ left; reflexivity | split; [ simpl; lia | discriminate ] ]. }
  destruct r as [o|]; [ | intros [= <- <- <-]; exact Hquiet ].
  destruct (isGrouped (Some o)); simpl negb; cbv iota;
    [ | intros [= <- <- <-]; exact Hquiet ].
  destruct (run host (Stabilized.moveDirectlyAfterGroup tab o) s0)
    as [[c1 s1] tr1] eqn:E1.
  intros [= <- <- <-]. apply placed_or_retried_prepend; [ exact H0 | ].
  exact (stabilized_move_shape _ _ _ _ _ _ E1).
Qed.

Lemma direct_onCreated_shape (m : gmap Z ActiveRecord) (tab : option Tab)
    (s s' : S) (c : completion unit) (tr : list call) :
  run host (Direct.onCreated m tab) s = (c, s', tr) ->
  placed_once c tr.
Proof.
  destruct tab as [tab|].
  2: { intros [= <- <- <-].
       split; [ left; reflexivity | split; [ simpl; lia | discriminate ] ]. }
  unfold Direct.onCreated, mbind, prog_bind. rewrite run_bind.
  pose proof (getOpenerForNewTab_only_fetches host m tab s) as H0.
  apply fetches_are_not_placements in H0.
  destruct (getOpenerForNewTab_returns m tab s) as [r Hr].
  destruct (run host (getOpenerForNewTab m tab) s) as [[c0 s0] tr0].
  simpl in H0, Hr. subst c0.
  assert (Hquiet : placed_once (Returned tt) (tr0 ++ [])).
  { apply placed_once_prepend; [ exact H0 | ].
    split; [ left; reflexivity | split; [ simpl; lia | discriminate ] ]. }
  destruct r as [o|]; [ | intros [= <- <- <-]; exact Hquiet ].
  destruct (isGrouped (Some o)); simpl negb; cbv iota;
    [ | intros [= <- <- <-]; exact Hquiet ].
  destruct (run host (Direct.moveDirectlyAfterGroup tab o) s0)
    as [[c1 s1] tr1] eqn:E1.
  intros [= <- <- <-]. apply placed_once_prepend; [ exact H0 | ].
  exact (direct_move_shape _ _ _ _ _ _ E1).
Qed.
End Placement.

Lemma placement_in_prefix (pre : list call) :
  forallb not_placement pre = false ->
  (1 <= length (List.filter is_placement pre))%nat.
Proof.
  induction pre as [|c pre IH]; simpl; [ discriminate | ].
  unfold not_placement at 1. destruct (is_placement c); simpl; [ lia | exact IH ].
Qed.

(** C6, amended.  In the stabilised revision a run makes at most two
    placement moves.  When the first one is rejected, the handler still
    returns normally; that move had gone to the slot computed from the two
    boundary queries just before it, and what follows it is the retry: one
    wait of [STABILIZE_MS], a fresh query of the group and, if it resolves, of
    the window, and, if both resolve, exactly one more move, to the slot
    recomputed from those answers, after which the run ends whatever the
    move's outcome.  In the direct revision a run makes at most one placement
    move and nothing follows it, whatever its outcome. *)
Theorem placement_is_retried_once_when_stabilized
    {S : Type} `{Capabilities} (host : Host S) (m : gmap Z ActiveRecord)
    (tab : option Tab) (s : S) :
  (forall c s' tr,
     run host (Stabilized.onCreated m tab) s = (c, s', tr) ->
     (length (List.filter is_placement tr) <= 2)%nat /\
     forall pre i w idx post,
       tr = pre ++ CMove i w idx Rejected :: post ->
       forallb not_placement pre = true ->
       0 <= idx ->
       c = Returned tt /\
       exists pre0 g l0 all0,
         pre = pre0 ++ [CQuery w g (Resolved l0); CQuery w None (Resolved all0)] /\
         idx = Z.min (Z.of_nat (length all0)) (groupEnd l0 + 1) /\
         retried i w g post) /\
  (forall c s' tr,
     run host (Direct.onCreated m tab) s = (c, s', tr) ->
     (length (List.filter is_placement tr) <= 1)%nat /\
     forall pre i w idx o post,
       tr = pre ++ CMove i w idx o :: post ->
       0 <= idx ->
       c = Returned tt /\ post = []).
Proof.
  split; intros c s' tr Hrun.
  - destruct (stabilized_onCreated_shape host _ _ _ _ _ _ Hrun)
      as (_ & Hlen & Hshape).
    split; [ exact Hlen | ].
    intros pre i w idx post -> Hpre Hidx.
    assert (Hx : is_placement (CMove i w idx Rejected) = true)
      by (apply Z.leb_le; exact Hidx).
    destruct (Hshape _ _ _ (first_placement_split _ _ _ Hpre Hx))
      as (Hc & pre0 & i' & w' & g & l0 & all0 & o & Hpre0 & Hmove & Ho).
    injection Hmove as -> -> -> <-.
    split; [ exact Hc | ]. exists pre0, g, l0, all0. auto.
  - destruct (direct_onCreated_shape host _ _ _ _ _ _ Hrun)
      as (_ & Hlen & Hshape).
    split; [ exact Hlen | ].
    intros pre i w idx o post -> Hidx.
    assert (Hx : is_placement (CMove i w idx o) = true)
      by (apply Z.leb_le; exact Hidx).
    destruct (forallb not_placement pre) eqn:Hpre.
    + exact (Hshape _ _ _ (first_placement_split _ _ _ Hpre Hx)).
    + apply placement_in_prefix in Hpre.
      rewrite List.filter_app, length_app in Hlen. simpl in Hlen, Hx.
      rewrite Hx in Hlen. simpl in Hlen. lia.
Qed.

Lemma placement_is_retried_witness :
  let r := run (@scripted firefox undisturbed (rejecting 6))
               (@Stabilized.onCreated firefox ∅ (Some tab4))
               (opened_from_singleton, 0%nat) in
  r.1.1 = Returned tt /\
  exists pre0 g l0 all0,
    firstn 6 r.2 =
      pre0 ++ [CQuery 10 g (Resolved l0); CQuery 10 None (Resolved all0)] /\
    2 = Z.min (Z.of_nat (length all0)) (groupEnd l0 + 1) /\
    retried 4 10 g (skipn 7 r.2).
Proof.
  intros r.
  refine (proj2 (proj1 (@placement_is_retried_once_when_stabilized _ firefox
            (@scripted firefox undisturbed (rejecting 6)) ∅ (Some tab4)
            (opened_from_singleton, 0%nat)) r.1.1 r.1.2 r.2 _)
          (firstn 6 r.2) 4 10 2 (skipn 7 r.2) _ _ _);
    [ reflexivity | reflexivity | reflexivity | lia ].
Defined.

(** C6, as stated, fails on the direct revision: the placement move (the
    call numbered 5) is rejected and the run ends there, with no wait and no
    second move. *)
Lemma direct_revision_moves_once :
  let r := run (@scripted firefox undisturbed (rejecting 5))
               (@Direct.onCreated firefox ∅ (Some tab4))
               (opened_from_singleton, 0%nat) in
  r.1.1 = Returned tt /\
  r.2 = [CGet 2 (Resolved tab2);
         CGet 2 (Resolved tab2);
         CUngroup [4] (Resolved tt);
         CQuery 10 (Some 7) (Resolved [tab2]);
         CQuery 10 None (Resolved singleton_ungrouped);
         CMove 4 10 2 Rejected].
Proof. split; reflexivity. Qed.

(** ** Where the handlers fall short *)

(** C5.  The retry of the stabilised revision does not stop on an empty
    group.  The first placement move (the call numbered 6) is rejected and
    the opener, the only member of group 7, is closed during the wait: the
    fresh boundary query finds no member, and the handler moves the new tab
    to index 0 of the window. *)
Theorem retry_moves_tab_after_vanished_group :
  let r := run (@scripted firefox opener_closed_during_wait (rejecting 6))
               (@Stabilized.onCreated firefox ∅ (Some tab4))
               (opened_from_singleton, 0%nat) in
  r.1.1 = Returned tt /\
  skipn 6 r.2 =
    [CMove 4 10 2 Rejected;
     CTimeout 25 (Resolved tt);
     CQuery 10 (Some 7) (Resolved []);
     CQuery 10 None (Resolved [mkTab 1 10 (Some (-1)) 0 None;
                               mkTab 3 10 (Some (-1)) 1 None;
                               mkTab 4 10 (Some (-1)) 2 (Some 2)]);
     CMove 4 10 0 (Resolved tt)] /\
  tab_of (b_tabs r.1.2.1) 4 = Some (mkTab 4 10 (Some (-1)) 0 (Some 2)).
Proof. repeat split; reflexivity. Qed.

(** C9.  A rejected query of the first boundary computation is thrown out of
    the handler, in both revisions: the group query of line 86 (212), and in
    the same way the window query of line 89 (214). *)
Theorem rejected_boundary_query_escapes_handler :
  run (@scripted firefox undisturbed (rejecting 3))
      (@Direct.onCreated firefox ∅ (Some tab4)) (opened_from_singleton, 0%nat) =
    (Thrown, (mkBrowser singleton_ungrouped [10], 4%nat),
     [CGet 2 (Resolved tab2);
      CGet 2 (Resolved tab2);
      CUngroup [4] (Resolved tt);
      CQuery 10 (Some 7) Rejected]) /\
  run (@scripted firefox undisturbed (rejecting 4))
      (@Stabilized.onCreated firefox ∅ (Some tab4)) (opened_from_singleton, 0%nat) =
    (Thrown, (mkBrowser singleton_ungrouped [10], 5%nat),
     [CGet 2 (Resolved tab2);
      CTimeout 25 (Resolved tt);
      CGet 2 (Resolved tab2);
      CUngroup [4] (Resolved tt);
      CQuery 10 (Some 7) Rejected]) /\
  run (@scripted firefox undisturbed (rejecting 5))
      (@Stabilized.onCreated firefox ∅ (Some tab4)) (opened_from_singleton, 0%nat) =
    (Thrown, (mkBrowser singleton_ungrouped [10], 6%nat),
     [CGet 2 (Resolved tab2);
      CTimeout 25 (Resolved tt);
      CGet 2 (Resolved tab2);
      CUngroup [4] (Resolved tt);
      CQuery 10 (Some 7) (Resolved [tab2]);
      CQuery 10 None Rejected]).
Proof. repeat split; reflexivity. Qed.

(** Every other rejection is absorbed: a handler that throws has just had a
    query rejected, before any placement move. *)
Lemma handler_throws_only_at_boundary_query
    {S : Type} `{Capabilities} (host : Host S) (m : gmap Z ActiveRecord)
    (tab : option Tab) (s : S) :
  thrown_at_query (run host (Direct.onCreated m tab) s).1.1
                  (run host (Direct.onCreated m tab) s).2 /\
  thrown_at_query (run host (Stabilized.onCreated m tab) s).1.1
                  (run host (Stabilized.onCreated m tab) s).2.
Proof.
  split.
  - destruct (run host (Direct.onCreated m tab) s) as [[c s'] tr] eqn:E.
    apply (direct_onCreated_shape host _ _ _ _ _ _ E).
  - destruct (run host (Stabilized.onCreated m tab) s) as [[c s'] tr] eqn:E.
    apply (stabilized_onCreated_shape host _ _ _ _ _ _ E).
Qed.

(** ** The reference host: tables *)

Lemma tab_of_Some (l : list Tab) (i : Z) (t : Tab) :
  tab_of l i = Some t -> In t l /\ tab_id t = i.
Proof.
  intros Hf. apply find_some in Hf as [Hin Hid].
  split; [ exact Hin | apply Z.eqb_eq, Hid ].
Qed.

Lemma tab_of_map (f : Tab -> Tab) (l : list Tab) (i : Z) :
  (forall t, tab_id (f t) = tab_id t) ->
  tab_of (map f l) i = option_map f (tab_of l i).
Proof.
  intros Hid. unfold tab_of. induction l as [|t l IH]; simpl; [ reflexivity | ].
  rewrite Hid. destruct (tab_id t =? i); [ reflexivity | exact IH ].
Qed.

Lemma tab_of_filter (P : Tab -> bool) (l : list Tab) (i : Z) (t : Tab) :
  tab_of l i = Some t -> P t = true -> tab_of (List.filter P l) i = Some t.
Proof.
  unfold tab_of. induction l as [|u l IH]; simpl; [ discriminate | ].
  destruct (tab_id u =? i) eqn:E.
  - intros [= ->] HP. rewrite HP. simpl. rewrite E. reflexivity.
  - intros Hf HP. destruct (P u); simpl; [ rewrite E | ]; auto.
Qed.

Lemma filter_map_commute (P : Tab -> bool) (f : Tab -> Tab) (l : list Tab) :
  (forall t, P (f t) = P t) ->
  List.filter P (map f l) = map f (List.filter P l).
Proof.
  intros HP. induction l as [|t l IH]; simpl; [ reflexivity | ].
  rewrite HP. destruct (P t); simpl; rewrite IH; reflexivity.
Qed.

Lemma others_map (f : Tab -> Tab) (w i : Z) (l : list Tab) :
  (forall t, tab_id (f t) = tab_id t) ->
  (forall t, tab_id t <> i -> tab_windowId (f t) = tab_windowId t) ->
  length (others w i (map f l)) = length (others w i l).
Proof.
  intros Hid Hwin. unfold others.
  rewrite filter_map_commute; [ apply length_map | ].
  intros t. rewrite Hid. destruct (Z.eqb_spec (tab_id t) i) as [_|Hne].
  - rewrite !andb_false_r. reflexivity.
  - rewrite (Hwin t Hne). reflexivity.
Qed.

Lemma others_filter (w w' i : Z) (l : list Tab) :
  w <> w' ->
  others w i (List.filter (fun t => negb (tab_windowId t =? w')) l) = others w i l.
Proof.
  intros Hne. unfold others. induction l as [|t l IH]; simpl; [ reflexivity | ].
  destruct (Z.eqb_spec (tab_windowId t) w') as [Hw|Hw]; simpl.
  - rewrite IH. destruct (Z.eqb_spec (tab_windowId t) w); [ congruence | reflexivity ].
  - rewrite IH. reflexivity.
Qed.

(** ** The reference host: operations *)

Section Reference.
Context `{Capabilities}.

Lemma place_id t w j u : tab_id (place t w j u) = tab_id u.
Proof.
  unfold place, open_gap, close_gap.
  repeat match goal with |- context [if ?b then _ else _] => destruct b end;
    reflexivity.
Qed.

Lemma place_other t w j u :
  tab_id u <> tab_id t ->
  tab_windowId (place t w j u) = tab_windowId u /\
  tab_groupId (place t w j u) = tab_groupId u /\
  (0 <= tab_index t -> 0 <= tab_index u -> 0 <= tab_index (place t w j u)).
Proof.
  intros Hne. unfold place, open_gap, close_gap.
  destruct (Z.eqb_spec (tab_id u) (tab_id t)); [ contradiction | ].
  destruct (Z.ltb_spec (tab_index t) (tab_index u));
    destruct (tab_windowId u =? tab_windowId t); simpl;
    repeat match goal with
           | |- context [?a =? ?b] => destruct (a =? b); simpl
           | |- context [?a <=? ?b] => destruct (a <=? b); simpl
           end;
    repeat split; try reflexivity; lia.
Qed.

Lemma move_tab_self t w idx l :
  tab_of l (tab_id t) = Some t ->
  tab_of (move_tab t w idx l) (tab_id t) =
    Some (moved t w (slot w (tab_id t) idx l)).
Proof.
  intros Ht. unfold move_tab.
  change (tab_of (map (place t w (slot w (tab_id t) idx l)) l) (tab_id t) = 
          Some (moved t w (slot w (tab_id t) idx l))).
  rewrite tab_of_map by apply place_id. rewrite Ht. simpl.
  unfold place. rewrite Z.eqb_refl. reflexivity.
Qed.

Lemma move_tab_others t w idx w' l :
  length (others w' (tab_id t) (move_tab t w idx l)) =
  length (others w' (tab_id t) l).
Proof.
  unfold move_tab.
  change (length (others w' (tab_id t) (map (place t w (slot w (tab_id t) idx l)) l)) =
          length (others w' (tab_id t) l)).
  apply others_map; [ apply place_id | ].
  intros u Hu. apply place_other, Hu.
Qed.

Lemma move_tab_anchored t w idx a W G l :
  a <> tab_id t -> 0 <= tab_index t ->
  anchored a W G l -> anchored a W G (move_tab t w idx l).
Proof.
  intros Hne Ht (o & Ho & Hw & Hg & Hi). unfold move_tab.
  change (anchored a W G (map (place t w (slot w (tab_id t) idx l)) l)).
  exists (place t w (slot w (tab_id t) idx l) o).
  rewrite tab_of_map by apply place_id. rewrite Ho.
  apply tab_of_Some in Ho as [_ Hid].
  destruct (place_other t w (slot w (tab_id t) idx l) o) as (H1 & H2 & H3);
    [ congruence | ].
  split; [ reflexivity | ]. split; [ congruence | ]. split; [ congruence | auto ].
Qed.

Lemma ungroup_in_id ids t : tab_id (ungroup_in ids t) = tab_id t.
Proof. unfold ungroup_in. destruct (existsb _ ids); reflexivity. Qed.

Lemma ungroup_in_self i t : tab_id t = i -> ungroup_in [i] t = ungroup_tab t.
Proof. intros <-. unfold ungroup_in. simpl. rewrite Z.eqb_refl. reflexivity. Qed.

Lemma ungroup_in_other i t : tab_id t <> i -> ungroup_in [i] t = t.
Proof.
  intros Hne. unfold ungroup_in. simpl.
  destruct (Z.eqb_spec (tab_id t) i); [ contradiction | reflexivity ].
Qed.

Lemma slot_nonneg w i idx l : 0 <= slot w i idx l.
Proof. unfold slot. destruct (idx =? -1); lia. Qed.

Lemma slot_tail w i l : slot w i (-1) l = Z.of_nat (length (others w i l)).
Proof. reflexivity. Qed.

Lemma windows_open (w : Z) (ws : list Z) :
  In w ws -> existsb (Z.eqb w) ws = true.
Proof.
  intros Hin. apply existsb_exists. exists w. split; [ exact Hin | apply Z.eqb_refl ].
Qed.

Lemma tab_exists (l : list Tab) (i : Z) (t : Tab) :
  tab_of l i = Some t -> existsb (fun t => tab_id t =? i) l = true.
Proof.
  intros Ht. apply tab_of_Some in Ht as [Hin Hid].
  apply existsb_exists. exists t. split; [ exact Hin | apply Z.eqb_eq, Hid ].
Qed.

Lemma fold_max_ge (l : list Z) (x : Z) : In x l -> x <= fold_right Z.max 0 l.
Proof.
  induction l as [|y l IH]; simpl; [ intros [] | ].
  intros [->|Hin]; [ lia | specialize (IH Hin); lia ].
Qed.

Lemma fresh_window_not_open (b : Browser) : ~ In (fresh_window b) (b_windows b).
Proof.
  intros Hin. unfold fresh_window in Hin.
  pose proof (fold_max_ge (b_windows b ++ map tab_windowId (b_tabs b)) _
                (in_or_app _ _ _ (or_introl Hin))). lia.
Qed.

Lemma fresh_window_empty (b : Browser) (t : Tab) :
  In t (b_tabs b) -> tab_windowId t <> fresh_window b.
Proof.
  intros Hin Heq. unfold fresh_window in Heq.
  pose proof (fold_max_ge (b_windows b ++ map tab_windowId (b_tabs b))
                (tab_windowId t)
                (in_or_app _ _ _ (or_intror (in_map _ _ _ Hin)))). lia.
Qed.
Lemma browser_move_ok (b : Browser) (i w idx : Z) (t : Tab) :
  tab_of (b_tabs b) i = Some t -> In w (b_windows b) ->
  browser unit (TabsMove i w idx) b =
    (Resolved tt, mkBrowser (move_tab t w idx (b_tabs b)) (b_windows b)).
Proof.
  intros Ht Hw. simpl. rewrite Ht, (windows_open _ _ Hw). reflexivity.
Qed.

Lemma browser_ungroup_ok (b : Browser) (i : Z) (t : Tab) :
  tab_of (b_tabs b) i = Some t ->
  browser unit (TabsUngroup [i]) b =
    (Resolved tt, mkBrowser (map (ungroup_in [i]) (b_tabs b)) (b_windows b)).
Proof.
  intros Ht. simpl. rewrite (tab_exists _ _ _ Ht). reflexivity.
Qed.

Lemma browser_remove_ok (b : Browser) (w : Z) :
  In w (b_windows b) ->
  browser unit (WindowsRemove w) b =
    (Resolved tt,
     mkBrowser (List.filter (fun t => negb (tab_windowId t =? w)) (b_tabs b))
               (List.filter (fun w' => negb (w' =? w)) (b_windows b))).
Proof. intros Hw. simpl. rewrite (windows_open _ _ Hw). reflexivity. Qed.

Lemma ungroup_anchored (i a W : Z) (G : option Z) (l : list Tab) :
  a <> i -> anchored a W G l -> anchored a W G (map (ungroup_in [i]) l).
Proof.
  intros Hne (o & Ho & Hrest). exists o.
  rewrite tab_of_map by apply ungroup_in_id. rewrite Ho. simpl.
  apply tab_of_Some in Ho as [_ Hid].
  rewrite ungroup_in_other by congruence. auto.
Qed.

Lemma remove_anchored (w a W : Z) (G : option Z) (l : list Tab) :
  W <> w -> anchored a W G l ->
  anchored a W G (List.filter (fun t => negb (tab_windowId t =? w)) l).
Proof.
  intros Hne (o & Ho & Hw & Hrest). exists o. split; [ | auto ].
  apply tab_of_filter; [ exact Ho | ].
  rewrite Hw. destruct (Z.eqb_spec W w); [ contradiction | reflexivity ].
Qed.

(** The window hop on the reference host: every call resolves and the tab
    ends ungrouped at the tail of its window. *)
Lemma windowHop_browser (i W : Z) (b : Browser) (u : Tab) :
  tab_of (b_tabs b) i = Some u -> In W (b_windows b) -> 0 <= tab_index u ->
  exists b',
    windowHop browser i W b =
      (b', [CCreate (Resolved (mkWindow (fresh_window b)));
            CMove i (fresh_window b) (-1) (Resolved tt);
            CMove i W (-1) (Resolved tt);
            CRemove (fresh_window b) (Resolved tt)]) /\
    tab_of (b_tabs b') i =
      Some (mkTab i W (Some TAB_GROUP_ID_NONE)
                  (Z.of_nat (length (others W i (b_tabs b))))
                  (tab_openerTabId u)) /\
    In W (b_windows b') /\
    length (others W i (b_tabs b')) = length (others W i (b_tabs b)) /\
    forall a G, a <> i -> anchored a W G (b_tabs b) -> anchored a W G (b_tabs b').
Proof.
  intros Hu HW Hidx.
  pose proof (tab_of_Some _ _ _ Hu) as [_ Hid].
  assert (Hfresh : W <> fresh_window b).
  { intros ->. exact (fresh_window_not_open b HW). }
  set (tmp := fresh_window b) in *.
  set (b1 := mkBrowser (b_tabs b) (tmp :: b_windows b)).
  set (u1 := moved u tmp (slot tmp i (-1) (b_tabs b))).
  set (l2 := move_tab u tmp (-1) (b_tabs b)).
  set (u2 := moved u1 W (slot W i (-1) l2)).
  set (l3 := move_tab u1 W (-1) l2).
  assert (H1 : browser unit (TabsMove i tmp (-1)) b1 =
               (Resolved tt, mkBrowser l2 (tmp :: b_windows b))).
  { apply (browser_move_ok b1); [ exact Hu | left; reflexivity ]. }
  assert (Hu1 : tab_of l2 i = Some u1).
  { subst l2 u1. rewrite <- Hid. apply move_tab_self. rewrite Hid. exact Hu. }
  assert (H2 : browser unit (TabsMove i W (-1)) (mkBrowser l2 (tmp :: b_windows b)) =
               (Resolved tt, mkBrowser l3 (tmp :: b_windows b))).
  { apply (browser_move_ok (mkBrowser l2 _)); [ exact Hu1 | right; exact HW ]. }
  assert (Hid1 : tab_id u1 = i) by (subst u1; exact Hid).
  assert (Hu2 : tab_of l3 i = Some u2).
  { subst l3 u2. rewrite <- Hid1. apply move_tab_self. rewrite Hid1. exact Hu1. }
  assert (H3 : browser unit (WindowsRemove tmp) (mkBrowser l3 (tmp :: b_windows b)) =
               (Resolved tt,
                mkBrowser (List.filter (fun t => negb (tab_windowId t =? tmp)) l3)
                          (List.filter (fun w' => negb (w' =? tmp))
                                       (tmp :: b_windows b)))).
  { apply (browser_remove_ok (mkBrowser l3 _)). left. reflexivity. }
  assert (Hnot : negb (W =? tmp) = true).
  { destruct (Z.eqb_spec W tmp); [ contradiction | reflexivity ]. }
  assert (Hlen2 : length (others W i l2) = length (others W i (b_tabs b))).
  { subst l2. rewrite <- Hid. apply move_tab_others. }
  assert (Hu2' : u2 = mkTab i W (Some TAB_GROUP_ID_NONE)
                       (Z.of_nat (length (others W i (b_tabs b))))
                       (tab_openerTabId u)).
  { subst u2 u1. unfold moved. simpl. rewrite Hid.
    destruct (Z.eqb_spec tmp W); [ congruence | ].
    rewrite slot_tail, Hlen2. reflexivity. }
  eexists. split.
  { unfold windowHop. change (browser Window WindowsCreate b)
      with (Resolved (mkWindow tmp), b1). cbn [win_id]. cbv beta iota.
    rewrite H1. cbv beta iota. rewrite H2. cbv beta iota. rewrite H3.
    reflexivity. }
  cbn [b_tabs b_windows]. split.
  { rewrite <- Hu2'. apply tab_of_filter; [ exact Hu2 | ].
    rewrite Hu2'. exact Hnot. }
  split.
  { apply filter_In. split; [ right; exact HW | exact Hnot ]. }
  split.
  { rewrite others_filter by exact Hfresh. subst l3.
    rewrite <- Hid1 at 1. rewrite move_tab_others, Hid1. exact Hlen2. }
  intros a G Ha Hanch. apply remove_anchored; [ exact Hfresh | ].
  subst l3. apply move_tab_anchored; [ congruence | | ].
  { subst u1. simpl. apply slot_nonneg. }
  subst l2. apply move_tab_anchored; [ congruence | exact Hidx | exact Hanch ].
Qed.
Lemma ensureUngrouped_browser_native (i W : Z) (b : Browser) (u : Tab) :
  tabs_ungroup = true ->
  tab_of (b_tabs b) i = Some u ->
  run browser (ensureUngrouped i W) b =
    (Returned tt, mkBrowser (map (ungroup_in [i]) (b_tabs b)) (b_windows b),
     [CUngroup [i] (Resolved tt)]) /\
  tab_of (map (ungroup_in [i]) (b_tabs b)) i = Some (ungroup_tab u).
Proof.
  intros Hcap Hu. split.
  - apply ensureUngrouped_native; [ exact Hcap | ].
    apply (browser_ungroup_ok b i u Hu).
  - rewrite tab_of_map by apply ungroup_in_id. rewrite Hu. simpl.
    apply tab_of_Some in Hu as [_ Hid]. rewrite ungroup_in_self by exact Hid.
    reflexivity.
Qed.

Lemma ungroup_tab_ungrouped (u : Tab) :
  tab_groupId u = Some TAB_GROUP_ID_NONE -> ungroup_tab u = u.
Proof. destruct u as [i w g j o]. simpl. intros ->. reflexivity. Qed.

(** Whichever way it goes about it, EnsureUngrouped on the reference host
    leaves the tab ungrouped in its window, and the tabs of other ids in
    their windows and groups. *)
Lemma ensureUngrouped_browser (i W : Z) (b : Browser) (u : Tab) :
  tab_of (b_tabs b) i = Some u -> tab_windowId u = W ->
  In W (b_windows b) -> 0 <= tab_index u ->
  exists b' tr u',
    run browser (ensureUngrouped i W) b = (Returned tt, b', tr) /\
    tab_of (b_tabs b') i = Some u' /\
    tab_windowId u' = W /\ tab_groupId u' = Some TAB_GROUP_ID_NONE /\
    0 <= tab_index u' /\
    In W (b_windows b') /\
    forall a G, a <> i -> anchored a W G (b_tabs b) -> anchored a W G (b_tabs b').
Proof.
  intros Hu Hw HW Hidx. destruct tabs_ungroup eqn:Hcap.
  - destruct (ensureUngrouped_browser_native i W b u Hcap Hu) as [Hrun Hu'].
    eexists _, _, _. split; [ exact Hrun | ].
    cbn [b_tabs b_windows]. split; [ exact Hu' | ].
    repeat split; try assumption.
    intros a G Ha. apply ungroup_anchored, Ha.
  - destruct (windowHop_browser i W b u Hu HW Hidx)
      as (b' & Hhop & Hu' & HW' & _ & Hanch).
    eexists _, _, _. split.
    { rewrite (ensureUngrouped_absent browser i W b Hcap), Hhop. reflexivity. }
    cbn [fst snd]. split; [ exact Hu' | ].
    repeat split; try assumption. simpl. lia.
Qed.
End Reference.

(** C7, amended.  On the reference host, where no call of EnsureUngrouped
    is rejected, for a tab that is already ungrouped: where [tabs.ungroup]
    is present, EnsureUngrouped leaves the tab's record (group, window,
    index) as it was; where it is absent, the window hop leaves the tab
    ungrouped in its window at the tail, its index being the number of the
    window's other tabs.  In both configurations a second call right after
    the first leaves the record as the first left it. *)
Theorem ensureUngrouped_on_ungrouped_tab
    `{Capabilities} (b : Browser) (i W : Z) (u : Tab) :
  tab_of (b_tabs b) i = Some u ->
  tab_windowId u = W ->
  tab_groupId u = Some TAB_GROUP_ID_NONE ->
  In W (b_windows b) ->
  0 <= tab_index u ->
  let b1 := (run browser (ensureUngrouped i W) b).1.2 in
  let b2 := (run browser (ensureUngrouped i W) b1).1.2 in
  (tabs_ungroup = true -> tab_of (b_tabs b1) i = Some u) /\
  (tabs_ungroup = false ->
     tab_of (b_tabs b1) i =
       Some (with_index u (Z.of_nat (length (others W i (b_tabs b)))))) /\
  tab_of (b_tabs b2) i = tab_of (b_tabs b1) i.
Proof.
  intros Hu Hw Hg HW Hidx b1 b2.
  pose proof (tab_of_Some _ _ _ Hu) as [_ Hid].
  destruct tabs_ungroup eqn:Hcap.
  - destruct (ensureUngrouped_browser_native i W b u Hcap Hu) as [Hrun Hu1].
    rewrite (ungroup_tab_ungrouped u Hg) in Hu1.
    assert (Hb1 : tab_of (b_tabs b1) i = Some u).
    { subst b1. rewrite Hrun. exact Hu1. }
    split; [ intros _; exact Hb1 | ]. split; [ discriminate | ].
    destruct (ensureUngrouped_browser_native i W b1 u Hcap Hb1) as [Hrun2 Hu2].
    rewrite (ungroup_tab_ungrouped u Hg) in Hu2.
    subst b2. rewrite Hrun2, Hb1. exact Hu2.
  - destruct (windowHop_browser i W b u Hu HW Hidx)
      as (b' & Hhop & Hu' & HW' & Hlen & _).
    assert (Eb1 : b1 = b').
    { subst b1. rewrite (ensureUngrouped_absent browser i W b Hcap), Hhop.
      reflexivity. }
    split; [ discriminate | ]. rewrite Eb1.
    assert (Hb1 : tab_of (b_tabs b') i =
                  Some (with_index u (Z.of_nat (length (others W i (b_tabs b)))))).
    { rewrite Hu'. unfold with_index. rewrite Hid, Hw, Hg. reflexivity. }
    split; [ intros _; exact Hb1 | ].
    assert (Hidx' : 0 <= tab_index
                           (with_index u (Z.of_nat (length (others W i (b_tabs b))))))
      by (simpl; lia).
    destruct (windowHop_browser i W b' _ Hb1 HW' Hidx')
      as (b'' & Hhop2 & Hu2 & _).
    subst b2. rewrite Eb1, (ensureUngrouped_absent browser i W b' Hcap), Hhop2.
    cbn [fst snd]. rewrite Hu2, Hb1, Hlen. unfold with_index. simpl.
    rewrite Hid, Hw, Hg. reflexivity.
Qed.

Lemma ensureUngrouped_on_ungrouped_witness :
  let b := opened_from_ungrouped in
  let b1 := (run (@browser firefox_without_ungroup)
                 (@ensureUngrouped firefox_without_ungroup 4 10) b).1.2 in
  let b2 := (run (@browser firefox_without_ungroup)
                 (@ensureUngrouped firefox_without_ungroup 4 10) b1).1.2 in
  tab_of (b_tabs b) 4 = Some (mkTab 4 10 (Some (-1)) 3 None) /\
  tab_of (b_tabs b1) 4 = Some (mkTab 4 10 (Some (-1)) 4 None) /\
  tab_of (b_tabs b2) 4 = tab_of (b_tabs b1) 4.
Proof.
  intros b b1 b2. split; [ reflexivity | ].
  destruct (@ensureUngrouped_on_ungrouped_tab firefox_without_ungroup
              b 4 10 (mkTab 4 10 (Some (-1)) 3 None)) as (_ & Hhop & Hagain).
  - reflexivity.
  - reflexivity.
  - reflexivity.
  - left. reflexivity.
  - simpl. lia.
  - split; [ apply Hhop; reflexivity | exact Hagain ].
Defined.

(** C7, as stated, fails where [tabs.ungroup] is absent: tab 4 of window 10
    is ungrouped, at index 3 of 5 tabs; EnsureUngrouped hops it through the
    auxiliary window and back to the tail, index 4. *)
Lemma window_hop_moves_ungrouped_tab :
  let b := opened_from_ungrouped in
  let b1 := (run (@browser firefox_without_ungroup)
                 (@ensureUngrouped firefox_without_ungroup 4 10) b).1.2 in
  tab_of (b_tabs b) 4 = Some (mkTab 4 10 (Some (-1)) 3 None) /\
  tab_of (b_tabs b1) 4 = Some (mkTab 4 10 (Some (-1)) 4 None).
Proof. split; reflexivity. Qed.

(** Where a call is rejected, EnsureUngrouped promises nothing for a tab
    that is already ungrouped.  With [tabs.ungroup] present and its call
    rejected, the hop runs and tab 4 goes from index 3 to the tail, index 4.
    Without [tabs.ungroup] and with the move back rejected (the call numbered
    2), tab 4 stays in the auxiliary window 11, which stays open. *)
Example ensureUngrouped_with_rejected_call :
  (let r := run (@scripted firefox undisturbed (rejecting 0))
                (@ensureUngrouped firefox 4 10) (opened_from_ungrouped, 0%nat) in
   r.1.1 = Returned tt /\
   r.2 = [CUngroup [4] Rejected;
          CCreate (Resolved (mkWindow 11));
          CMove 4 11 (-1) (Resolved tt);
          CMove 4 10 (-1) (Resolved tt);
          CRemove 11 (Resolved tt)] /\
   tab_of (b_tabs r.1.2.1) 4 = Some (mkTab 4 10 (Some (-1)) 4 None)) /\
  (let r := run (@scripted firefox_without_ungroup undisturbed (rejecting 2))
                (@ensureUngrouped firefox_without_ungroup 4 10)
                (opened_from_ungrouped, 0%nat) in
   r.1.1 = Returned tt /\
   r.2 = [CCreate (Resolved (mkWindow 11));
          CMove 4 11 (-1) (Resolved tt);
          CMove 4 10 (-1) Rejected] /\
   tab_of (b_tabs r.1.2.1) 4 = Some (mkTab 4 11 (Some (-1)) 0 None) /\
   b_windows r.1.2.1 = [11; 10]).
Proof. repeat split; reflexivity. Qed.

(** ** The reference host keeps its table well formed *)

Lemma NoDup_map_injective {A B : Type} (f : A -> B) (l : list A) (x y : A) :
  List.NoDup (map f l) -> In x l -> In y l -> f x = f y -> x = y.
Proof.
  induction l as [|a l IH]; simpl; [ contradiction | ].
  intros Hnd Hx Hy Hf. apply List.NoDup_cons_iff in Hnd as [Ha Hnd].
  destruct Hx as [<-|Hx], Hy as [<-|Hy]; auto.
  - exfalso. apply Ha. rewrite Hf. apply in_map, Hy.
  - exfalso. apply Ha. rewrite <- Hf. apply in_map, Hx.
Qed.

Lemma NoDup_map_filter {A B : Type} (f : A -> B) (P : A -> bool) (l : list A) :
  List.NoDup (map f l) -> List.NoDup (map f (List.filter P l)).
Proof.
  induction l as [|a l IH]; simpl; [ auto | ].
  intros Hnd. apply List.NoDup_cons_iff in Hnd as [Ha Hnd].
  destruct (P a); simpl; [ | auto ].
  apply List.NoDup_cons; [ | auto ].
  intros Hin. apply Ha. apply in_map_iff in Hin as (x & Hx & Hin).
  apply in_map_iff. exists x. split; [ exact Hx | ].
  apply filter_In in Hin. tauto.
Qed.

(** A list of [n] distinct numbers below [n] is a permutation of
    [0 .. n - 1], and conversely. *)
Lemma dense_intro (idxs : list Z) :
  List.NoDup idxs ->
  (forall x, In x idxs -> 0 <= x < Z.of_nat (length idxs)) ->
  Permutation idxs (map Z.of_nat (seq 0 (length idxs))).
Proof.
  intros Hnd Hb. apply NoDup_Permutation_bis; [ exact Hnd | | ].
  - rewrite length_map, length_seq. lia.
  - intros x Hx. specialize (Hb x Hx). apply in_map_iff.
    exists (Z.to_nat x). split; [ lia | ]. apply in_seq. lia.
Qed.

Lemma dense_elim (idxs : list Z) (n : nat) :
  Permutation idxs (map Z.of_nat (seq 0 n)) ->
  List.NoDup idxs /\ forall x, In x idxs -> 0 <= x < Z.of_nat n.
Proof.
  intros HP. split.
  - apply (Permutation_NoDup (Permutation_sym HP)).
    apply NoDup_map_NoDup_ForallPairs; [ | apply seq_NoDup ].
    intros x y _ _. apply Nat2Z.inj.
  - intros x Hx. apply (Permutation_in _ HP) in Hx.
    apply in_map_iff in Hx as (k & <- & Hk). apply in_seq in Hk. lia.
Qed.

Lemma members_window (w : Z) (l : list Tab) (t : Tab) :
  In t (members w None l) <-> In t l /\ tab_windowId t = w.
Proof.
  unfold members, query_matches. rewrite filter_In, andb_true_r, Z.eqb_eq.
  reflexivity.
Qed.

Lemma dense_index (w : Z) (l : list Tab) (t : Tab) :
  dense w l -> In t l -> tab_windowId t = w ->
  0 <= tab_index t < Z.of_nat (length (members w None l)).
Proof.
  intros Hd Hin Hw. apply dense_elim in Hd as [_ Hb]. apply Hb.
  apply in_map, members_window. auto.
Qed.

Lemma dense_distinct (w : Z) (l : list Tab) (t u : Tab) :
  dense w l -> In t l -> In u l -> tab_windowId t = w -> tab_windowId u = w ->
  tab_index t = tab_index u -> t = u.
Proof.
  intros Hd Ht Hu Hwt Hwu. apply dense_elim in Hd as [Hnd _].
  apply (NoDup_map_injective tab_index _ _ _ Hnd); apply members_window; auto.
Qed.

Lemma others_absent (w i : Z) (l : list Tab) :
  ~ In i (map tab_id l) -> others w i l = members w None l.
Proof.
  intros Hi. unfold others, members. apply filter_ext_in. intros t Ht.
  unfold query_matches. f_equal.
  destruct (Z.eqb_spec (tab_id t) i) as [<-|]; [ | reflexivity ].
  exfalso. apply Hi, in_map, Ht.
Qed.

(** The tabs of a window are the moved tab, if it is there, and the
    others. *)
Lemma members_others (w i : Z) (l : list Tab) (t : Tab) :
  List.NoDup (map tab_id l) -> tab_of l i = Some t ->
  (tab_windowId t = w ->
   length (members w None l) = Datatypes.S (length (others w i l))) /\
  (tab_windowId t <> w ->
   length (members w None l) = length (others w i l)).
Proof.
  induction l as [|a l IH]; simpl; [ discriminate | ].
  intros Hnd Ht. apply List.NoDup_cons_iff in Hnd as [Ha Hnd].
  unfold query_matches at 1 2. rewrite !andb_true_r.
  destruct (Z.eqb_spec (tab_id a) i) as [Hai|Hai].
  - injection Ht as <-. rewrite Hai in Ha.
    fold (members w None l). fold (others w i l).
    rewrite (others_absent w i l Ha). rewrite andb_false_r.
    destruct (Z.eqb_spec (tab_windowId a) w); simpl length;
      split; intros; congruence.
  - fold (members w None l). fold (others w i l). rewrite andb_true_r.
    destruct (IH Hnd Ht) as [IH1 IH2].
    destruct (tab_windowId a =? w); simpl length; split; intros; auto.
Qed.

Lemma slot_range w i idx l :
  0 <= slot w i idx l <= Z.of_nat (length (others w i l)).
Proof. unfold slot. destruct (idx =? -1); lia. Qed.

Section Dense.
Context `{Capabilities}.

Lemma move_tab_ids t w idx l :
  map tab_id (move_tab t w idx l) = map tab_id l.
Proof.
  unfold move_tab. rewrite map_map. apply map_ext. intros u. apply place_id.
Qed.

(** A move keeps the indices of every window dense: the tabs after the
    place the tab leaves move down, those from the place it goes to move
    up. *)
Lemma move_tab_dense (l : list Tab) (i : Z) (t : Tab) (w idx : Z) :
  List.NoDup (map tab_id l) -> (forall w', dense w' l) ->
  tab_of l i = Some t ->
  forall w', dense w' (move_tab t w idx l).
Proof.
  intros Hids Hdense Ht w'.
  pose proof (tab_of_Some _ _ _ Ht) as [Htl Hti].
  pose proof (slot_range w (tab_id t) idx l) as Hj.
  pose proof (members_others w' i l t Hids Ht) as [Hold1 Hold0].
  assert (Hnew : (w = w' -> length (members w' None (move_tab t w idx l)) =
                            Datatypes.S (length (others w' i l))) /\
                 (w <> w' -> length (members w' None (move_tab t w idx l)) =
                             length (others w' i l))).
  { rewrite <- Hti, <- (move_tab_others t w idx w' l).
    apply (members_others w' (tab_id t) (move_tab t w idx l)
             (moved t w (slot w (tab_id t) idx l))).
    - rewrite move_tab_ids. exact Hids.
    - apply move_tab_self. rewrite Hti. exact Ht. }
  pose proof (dense_index _ _ _ (Hdense (tab_windowId t)) Htl eq_refl) as Hp.
  unfold dense. revert Hnew.
  unfold move_tab, members. rewrite filter_map_swap, map_map.
  set (j := slot w (tab_id t) idx l) in *.
  set (S := List.filter (fun u => query_matches w' None (place t w j u)) l).
  rewrite !length_map. intros [Hnew1 Hnew0].
  rewrite <- (length_map (fun u => tab_index (place t w j u)) S).
  assert (HS : forall u, In u S ->
            In u l /\ tab_windowId (place t w j u) = w').
  { intros u Hu. apply filter_In in Hu as [Hu Hq]. split; [ exact Hu | ].
    unfold query_matches in Hq. rewrite andb_true_r in Hq.
    apply Z.eqb_eq, Hq. }
  assert (Hself : forall u, In u l -> tab_id u = tab_id t -> u = t).
  { intros u Hu. apply (NoDup_map_injective tab_id l); assumption. }
  (* what the move does to another tab *)
  assert (Hother : forall u, In u l -> tab_id u <> tab_id t ->
            tab_windowId (place t w j u) = tab_windowId u /\
            0 <= tab_index u <
              Z.of_nat (length (members (tab_windowId u) None l)) /\
            (tab_windowId u = tab_windowId t -> tab_index u <> tab_index t) /\
            tab_index (place t w j u) =
              (tab_index u -
               (if (tab_windowId u =? tab_windowId t) &&
                   (tab_index t <? tab_index u) then 1 else 0)) +
              (if (tab_windowId u =? w) &&
                  (j <=? tab_index u -
                         (if (tab_windowId u =? tab_windowId t) &&
                             (tab_index t <? tab_index u) then 1 else 0))
               then 1 else 0)).
  { intros u Hu Hne.
    split; [ apply (place_other t w j u Hne) | ].
    split; [ apply (dense_index _ _ _ (Hdense (tab_windowId u)) Hu eq_refl) | ].
    split.
    - intros Hw Hx. apply Hne. f_equal.
      apply (dense_distinct (tab_windowId t) l u t); auto.
    - unfold place. destruct (Z.eqb_spec (tab_id u) (tab_id t)); [ contradiction | ].
      unfold open_gap, close_gap.
      destruct ((tab_windowId u =? tab_windowId t) && (tab_index t <? tab_index u));
        simpl.
      + destruct ((tab_windowId u =? w) && (j <=? tab_index u - 1)); simpl; lia.
      + rewrite !Z.sub_0_r.
        destruct ((tab_windowId u =? w) && (j <=? tab_index u)); simpl; lia. }
  apply dense_intro.
  - apply NoDup_map_NoDup_ForallPairs.
    2: { apply List.NoDup_filter. apply (NoDup_map_inv tab_id). exact Hids. }
    intros u v Hu Hv Hidx.
    apply HS in Hu as [Hu Hwu]. apply HS in Hv as [Hv Hwv].
    destruct (Z.eq_dec (tab_id u) (tab_id t)) as [Eu|Nu];
      destruct (Z.eq_dec (tab_id v) (tab_id t)) as [Ev|Nv].
    + rewrite (Hself u Hu Eu), (Hself v Hv Ev). reflexivity.
    + exfalso. rewrite (Hself u Hu Eu) in *.
      destruct (Hother v Hv Nv) as (Hwin & Hb & Hd & Hi).
      unfold place at 1 in Hidx. rewrite Z.eqb_refl in Hidx. simpl in Hidx.
      unfold place at 1 in Hwu. rewrite Z.eqb_refl in Hwu. simpl in Hwu.
      rewrite Hwin in Hwv. rewrite Hi in Hidx.
      assert (Hvw : (tab_windowId v =? w) = true) by (apply Z.eqb_eq; congruence).
      rewrite Hvw in Hidx. simpl in Hidx.
      destruct ((tab_windowId v =? tab_windowId t) && (tab_index t <? tab_index v));
        rewrite ?Z.sub_0_r in Hidx;
        repeat match type of Hidx with
               | context [?a <=? ?b] => destruct (Z.leb_spec a b)
               end; lia.
    + exfalso. rewrite (Hself v Hv Ev) in *.
      destruct (Hother u Hu Nu) as (Hwin & Hb & Hd & Hi).
      unfold place at 2 in Hidx. rewrite Z.eqb_refl in Hidx. simpl in Hidx.
      unfold place at 1 in Hwv. rewrite Z.eqb_refl in Hwv. simpl in Hwv.
      rewrite Hwin in Hwu. rewrite Hi in Hidx.
      assert (Huw : (tab_windowId u =? w) = true) by (apply Z.eqb_eq; congruence).
      rewrite Huw in Hidx. simpl in Hidx.
      destruct ((tab_windowId u =? tab_windowId t) && (tab_index t <? tab_index u));
        rewrite ?Z.sub_0_r in Hidx;
        repeat match type of Hidx with
               | context [?a <=? ?b] => destruct (Z.leb_spec a b)
               end; lia.
    + destruct (Hother u Hu Nu) as (Hwinu & Hbu & Hdu & Hiu).
      destruct (Hother v Hv Nv) as (Hwinv & Hbv & Hdv & Hiv).
      rewrite Hwinu in Hwu. rewrite Hwinv in Hwv.
      apply (dense_distinct w' l u v); auto.
      rewrite Hiu, Hiv in Hidx. rewrite Hwu, Hwv in *.
      destruct (Z.eqb_spec w' (tab_windowId t)) as [Ews|Nws];
        destruct (w' =? w); simpl in Hidx;
        try specialize (Hdu Ews); try specialize (Hdv Ews);
        destruct (Z.ltb_spec (tab_index t) (tab_index u));
        destruct (Z.ltb_spec (tab_index t) (tab_index v));
        simpl in Hidx; rewrite ?Z.sub_0_r in Hidx;
        repeat match type of Hidx with
               | context [?a <=? ?b] => destruct (Z.leb_spec a b)
               end; simpl in Hidx; lia.
  - intros x Hx. apply in_map_iff in Hx as (u & <- & Hu).
    rewrite length_map.
    apply HS in Hu as [Hu Hwu].
    destruct (Z.eq_dec (tab_id u) (tab_id t)) as [Eu|Nu].
    + rewrite (Hself u Hu Eu) in *.
      unfold place in Hwu |- *. rewrite Z.eqb_refl in Hwu |- *. simpl in Hwu |- *.
      rewrite (Hnew1 Hwu). rewrite Hwu, Hti in Hj. lia.
    + destruct (Hother u Hu Nu) as (Hwin & Hb & Hd & Hi).
      rewrite Hwin in Hwu. rewrite Hi, Hwu in *.
      rewrite Hti in Hj.
      destruct (Z.eq_dec (tab_windowId t) w') as [Ews|Nws];
        [ rewrite Ews in Hp; rewrite (Hold1 Ews) in Hb, Hp;
          specialize (Hd (eq_sym Ews))
        | rewrite (Hold0 Nws) in Hb; clear Hd ];
        (destruct (Z.eq_dec w w') as [Ew|Nw];
         [ rewrite (Hnew1 Ew) | rewrite (Hnew0 Nw) ]);
        clear Hold1 Hold0 Hnew1 Hnew0;
        destruct (Z.eqb_spec w' (tab_windowId t)); try congruence;
        destruct (Z.eqb_spec w' w); try congruence;
        destruct (Z.ltb_spec (tab_index t) (tab_index u)); simpl;
        rewrite ?Z.sub_0_r;
        repeat match goal with
               | |- context [?a <=? ?b] => destruct (Z.leb_spec a b)
               end; simpl; lia.
Qed.

Lemma ungroup_in_window ids t : tab_windowId (ungroup_in ids t) = tab_windowId t.
Proof. unfold ungroup_in. destruct (existsb _ ids); reflexivity. Qed.

Lemma ungroup_in_index ids t : tab_index (ungroup_in ids t) = tab_index t.
Proof. unfold ungroup_in. destruct (existsb _ ids); reflexivity. Qed.

Lemma ungroup_dense (ids : list Z) (l : list Tab) (w : Z) :
  dense w l -> dense w (map (ungroup_in ids) l).
Proof.
  unfold dense, members. intros Hd.
  rewrite filter_map_commute.
  - rewrite map_map, length_map.
    rewrite (map_ext _ tab_index (ungroup_in_index ids)). exact Hd.
  - intros t. unfold query_matches. rewrite ungroup_in_window. reflexivity.
Qed.

Lemma members_remove (w w' : Z) (l : list Tab) :
  members w' None (List.filter (fun t => negb (tab_windowId t =? w)) l) =
    if w' =? w then [] else members w' None l.
Proof.
  unfold members, query_matches.
  induction l as [|a l IH]; simpl; [ destruct (w' =? w); reflexivity | ].
  destruct (Z.eqb_spec (tab_windowId a) w) as [Ea|Na]; simpl.
  - rewrite IH. destruct (Z.eqb_spec w' w) as [->|Nw]; [ reflexivity | ].
    destruct (Z.eqb_spec (tab_windowId a) w'); [ congruence | reflexivity ].
  - rewrite IH. destruct (Z.eqb_spec w' w) as [->|Nw]; [ | reflexivity ].
    destruct (Z.eqb_spec (tab_windowId a) w); [ contradiction | reflexivity ].
Qed.

Lemma remove_dense (w w' : Z) (l : list Tab) :
  dense w' l ->
  dense w' (List.filter (fun t => negb (tab_windowId t =? w)) l).
Proof.
  unfold dense. rewrite members_remove.
  destruct (w' =? w); [ intros _; apply Permutation_refl | auto ].
Qed.

(** Every call leaves the reference host well formed. *)
Lemma browser_well_formed (X : Type) (e : hostE X) (b : Browser) :
  well_formed b -> well_formed (browser X e b).2.
Proof.
  intros [Hids Hd]. destruct e; simpl; try (split; assumption).
  - destruct (tab_of (b_tabs b) tabId) as [t|] eqn:Et; [ | split; assumption ].
    destruct (existsb (Z.eqb windowId) (b_windows b)); [ | split; assumption ].
    split; cbn [snd b_tabs].
    + rewrite move_tab_ids. exact Hids.
    + apply (move_tab_dense _ tabId); assumption.
  - destruct (forallb _ tabIds); [ | split; assumption ].
    split; cbn [snd b_tabs].
    + rewrite map_map. rewrite (map_ext _ tab_id (ungroup_in_id tabIds)).
      exact Hids.
    + intros w. apply ungroup_dense, Hd.
  - destruct (existsb (Z.eqb windowId) (b_windows b)); [ | split; assumption ].
    split; cbn [snd b_tabs].
    + apply NoDup_map_filter, Hids.
    + intros w. apply remove_dense, Hd.
Qed.

(** So does every run of a program against it. *)
Lemma run_well_formed {R : Type} (p : prog R) (b : Browser) :
  well_formed b -> well_formed (run browser p b).1.2.
Proof.
  revert b. induction p as [r| |X e k IH]; intros b Hb; simpl; auto.
  pose proof (browser_well_formed X e b Hb) as Hb1.
  destruct (browser X e b) as [o b1]. specialize (IH o b1 Hb1).
  destruct (run browser (k o) b1) as [[c b2] tr]. exact IH.
Qed.
End Dense.

(** ** Landing after the group *)

Section Landing.
Context `{Capabilities}.

Lemma getOpenerForNewTab_browser (m : gmap Z ActiveRecord) (tab opener : Tab)
    (b b0 : Browser) (tr0 : list call) :
  run browser (getOpenerForNewTab m tab) b = (Returned (Some opener), b0, tr0) ->
  b0 = b /\ tab_of (b_tabs b) (tab_id opener) = Some opener.
Proof.
  assert (Hfix : forall i t, tab_of (b_tabs b) i = Some t ->
                             tab_of (b_tabs b) (tab_id t) = Some t).
  { intros i t Ht. pose proof (tab_of_Some _ _ _ Ht) as [_ ->]. exact Ht. }
  unfold getOpenerForNewTab.
  destruct (tab_openerTabId tab) as [o|]; simpl.
  - destruct (tab_of (b_tabs b) o) as [t|] eqn:Eo; simpl.
    + intros [= <- <- _]. eauto.
    + destruct (candidateId m tab) as [c|]; simpl; [ | discriminate ].
      destruct (tab_of (b_tabs b) c) as [t|] eqn:Ec; simpl; [ | discriminate ].
      intros [= <- <- _]. eauto.
  - destruct (candidateId m tab) as [c|]; simpl; [ | discriminate ].
    destruct (tab_of (b_tabs b) c) as [t|] eqn:Ec; simpl; [ | discriminate ].
    intros [= <- <- _]. eauto.
Qed.

Lemma anchored_member (a W G : Z) (l : list Tab) :
  anchored a W (Some G) l ->
  exists o, In o (members W (Some G) l) /\ 0 <= tab_index o.
Proof.
  intros (o & Ho & Hw & Hg & Hi). exists o. split; [ | exact Hi ].
  apply tab_of_Some in Ho as [Hin _]. apply filter_In. split; [ exact Hin | ].
  unfold query_matches. rewrite Hw, Hg, Z.eqb_refl. simpl. apply Z.eqb_refl.
Qed.

Lemma groupEnd_is_max (l : list Tab) (o : Tab) :
  In o l -> 0 <= tab_index o ->
  0 <= groupEnd l /\ is_max_index (groupEnd l) l.
Proof.
  intros Hin Hi. unfold groupEnd.
  destruct (fold_raise_end_bounds l (-1)) as (_ & Hall & Hex).
  pose proof (Hall o Hin). split; [ lia | ]. split; [ exact Hall | ].
  destruct Hex as [Heq|Hex]; [ lia | exact Hex ].
Qed.

Lemma isGrouped_group (t : Tab) (G : Z) :
  tab_groupId t = Some G -> G <> TAB_GROUP_ID_NONE -> isGrouped (Some t) = true.
Proof.
  intros Hg Hne. unfold isGrouped. rewrite Hg.
  destruct (Z.eqb_spec G TAB_GROUP_ID_NONE); [ contradiction | reflexivity ].
Qed.

Lemma well_formed_index (b : Browser) (i : Z) (t : Tab) :
  well_formed b -> tab_of (b_tabs b) i = Some t -> 0 <= tab_index t.
Proof.
  intros [_ Hd] Ht. apply tab_of_Some in Ht as [Hin _].
  apply (dense_index _ _ _ (Hd (tab_windowId t)) Hin eq_refl).
Qed.

(** From the point where the new tab sits in the opener's window. *)
Lemma placement_browser (i W G : Z) (b : Browser) (u : Tab) (a : Z)
    (k : prog unit) :
  well_formed b ->
  tab_of (b_tabs b) i = Some u -> tab_windowId u = W ->
  In W (b_windows b) ->
  a <> i -> anchored a W (Some G) (b_tabs b) ->
  placed_after i W G (run browser (ensureUngrouped i W) b).1.2
    (run browser
       (bind (ensureUngrouped i W) (fun _ =>
        bind (lastIndexOfGroup (Some G) W) (fun end_ =>
        if end_ <? 0 then Done tt
        else bind (await (TabsQuery W None)) (fun allTabs =>
             try_catch
               (await (TabsMove i W (Z.min (Z.of_nat (length allTabs)) (end_ + 1))))
               k)))) b).
Proof.
  intros Hwf Hu Hw HW Ha Hanch.
  pose proof (well_formed_index b i u Hwf Hu) as Hidx.
  pose proof (run_well_formed (ensureUngrouped i W) b Hwf) as Hwfb.
  destruct (ensureUngrouped_browser i W b u Hu Hw HW Hidx)
    as (b_b & tr & u' & Hrun & Hu' & Hw' & Hg' & Hidx' & HW' & Hframe).
  rewrite run_bind, Hrun in *. cbn [fst snd] in *. cbv beta iota.
  specialize (Hframe a (Some G) Ha Hanch).
  destruct (anchored_member _ _ _ _ Hframe) as (o & Ho & Hoi).
  destruct (groupEnd_is_max _ o Ho Hoi) as [Hend Hmax].
  unfold placed_after. cbv zeta.
  set (l := members W (Some G) (b_tabs b_b)) in *.
  set (all := members W None (b_tabs b_b)).
  set (target := Z.min (Z.of_nat (length all)) (groupEnd l + 1)).
  assert (Hmove : browser unit (TabsMove i W target) b_b =
                  (Resolved tt, mkBrowser (move_tab u' W target (b_tabs b_b))
                                          (b_windows b_b)))
    by (apply browser_move_ok; assumption).
  pose proof (browser_well_formed _ (TabsMove i W target) b_b Hwfb) as Hwff.
  rewrite Hmove in Hwff |- *. cbn [snd] in Hwff |- *.
  unfold lastIndexOfGroup, mbind, prog_bind. step.
  change (browser (list Tab) (TabsQuery W (Some G)) b_b) with (Resolved l, b_b).
  step. destruct (Z.ltb_spec (groupEnd l) 0) as [Hlt|_]; [ lia | ].
  step. change (browser (list Tab) (TabsQuery W None) b_b) with (Resolved all, b_b).
  step. fold target. rewrite Hmove. step.
  split; [ exists u'; auto | ].
  split; [ exact Hmax | ].
  split; [ reflexivity | ].
  split; [ exists tr; reflexivity | ].
  split; [ reflexivity | ].
  split; [ exact Hwff | ].
  pose proof (tab_of_Some _ _ _ Hu') as [_ Hid'].
  exists (moved u' W (slot W i target (b_tabs b_b))). cbn [b_tabs].
  split.
  { rewrite <- Hid' at 1 2. apply move_tab_self. rewrite Hid'. exact Hu'. }
  split; [ reflexivity | ].
  split; [ simpl; rewrite Hw', Z.eqb_refl; exact Hg' | ].
  destruct (members_others W i (b_tabs b_b) u' (wf_ids _ Hwfb) Hu') as [Hcount _].
  specialize (Hcount Hw'). fold all in Hcount.
  simpl. unfold slot. subst target.
  destruct (Z.eqb_spec (Z.min (Z.of_nat (length all)) (groupEnd l + 1)) (-1)); lia.
Qed.

Lemma placed_prepend (i W G : Z) (b_b : Browser) (tr0 : list call)
    (r : completion unit * Browser * list call) :
  placed_after i W G b_b r ->
  placed_after i W G b_b (let '(c, s, tr) := r in (c, s, tr0 ++ tr)).
Proof.
  destruct r as [[c s] tr]. unfold placed_after. cbn [fst snd].
  intros (Hu & Hmax & Hc & (pre & ->) & Hrest).
  split; [ exact Hu | ]. split; [ exact Hmax | ]. split; [ exact Hc | ].
  split; [ exists (tr0 ++ pre); apply app_assoc | exact Hrest ].
Qed.

Lemma refetch_browser (b : Browser) (opener : Tab) :
  tab_of (b_tabs b) (tab_id opener) = Some opener ->
  run browser
      (try_catch (bind (await (TabsGet (tab_id opener))) (fun t => Done (Some t)))
                 (Done None)) b =
    (Returned (Some opener), b, [CGet (tab_id opener) (Resolved opener)]).
Proof. intros Hop. simpl. rewrite Hop. reflexivity. Qed.

(** Bringing the new tab into the opener's window, when it is elsewhere. *)
Lemma relocate_browser (b : Browser) (tab : Tab) (W a : Z) (G : option Z) :
  well_formed b ->
  tab_of (b_tabs b) (tab_id tab) = Some tab ->
  In W (b_windows b) ->
  a <> tab_id tab -> anchored a W G (b_tabs b) ->
  let b_r := if tab_windowId tab =? W then b
             else (browser _ (TabsMove (tab_id tab) W (-1)) b).2 in
  exists tr_r u,
    run browser
        (if negb (tab_windowId tab =? W)
         then try_catch (bind (await (TabsMove (tab_id tab) W (-1)))
                              (fun _ => Done true))
                        (Done false)
         else Done true) b = (Returned true, b_r, tr_r) /\
    well_formed b_r /\
    tab_of (b_tabs b_r) (tab_id tab) = Some u /\ tab_windowId u = W /\
    In W (b_windows b_r) /\
    anchored a W G (b_tabs b_r).
Proof.
  intros Hwf Ht HW Ha Hanch b_r. subst b_r.
  pose proof (well_formed_index b _ tab Hwf Ht) as Hidx.
  destruct (Z.eqb_spec (tab_windowId tab) W) as [Hw|Hw]; cbn [negb].
  - exists [], tab. split; [ reflexivity | ]. split; [ exact Hwf | ].
    split; [ exact Ht | ]. split; [ exact Hw | ]. split; assumption.
  - pose proof (browser_move_ok b _ W (-1) tab Ht HW) as Hmove.
    pose proof (browser_well_formed _ (TabsMove (tab_id tab) W (-1)) b Hwf)
      as Hwfr.
    rewrite Hmove in Hwfr |- *. cbn [snd] in Hwfr |- *.
    exists [CMove (tab_id tab) W (-1) (Resolved tt)],
           (moved tab W (slot W (tab_id tab) (-1) (b_tabs b))).
    split.
    { cbn [run bind try_catch await log]. rewrite Hmove. reflexivity. }
    split; [ exact Hwfr | ].
    cbn [b_tabs b_windows]. split; [ apply move_tab_self, Ht | ].
    split; [ reflexivity | ]. split; [ exact HW | ].
    apply move_tab_anchored; assumption.
Qed.
End Landing.


Lemma opened_from_group_well_formed : well_formed opened_from_group.
Proof.
  split.
  - simpl. repeat (apply List.NoDup_cons; [ simpl; intuition lia | ]).
    apply List.NoDup_nil.
  - intros w. unfold dense, members, opened_from_group, query_matches.
    cbn [b_tabs List.filter tab_windowId].
    destruct (10 =? w); simpl; apply Permutation_refl.
Qed.



(** Scenario 1 of the specification: the new tab goes to index 3 and the
    tab that was there moves to index 4. *)
Example scenario_opened_from_group :
  let b' := (run (@browser firefox) (@Stabilized.onCreated firefox ∅ (Some tab5))
                 opened_from_group).1.2 in
  tab_of (b_tabs b') 5 = Some (mkTab 5 10 (Some (-1)) 3 (Some 2)) /\
  tab_of (b_tabs b') 4 = Some (mkTab 4 10 (Some (-1)) 4 None) /\
  tab_of (b_tabs b') 3 = Some (mkTab 3 10 (Some 7) 2 None).
Proof. repeat split; reflexivity. Qed.

(** Scenario 4: the opener is the only member of its group, at index 1; the
    new tab goes to index 2. *)
Example scenario_opened_from_singleton :
  let b' := (run (@browser firefox) (@Direct.onCreated firefox ∅ (Some tab4))
                 opened_from_singleton).1.2 in
  tab_of (b_tabs b') 4 = Some (mkTab 4 10 (Some (-1)) 2 (Some 2)) /\
  tab_of (b_tabs b') 3 = Some (mkTab 3 10 (Some (-1)) 3 None).
Proof. repeat split; reflexivity. Qed.

(** Scenario 6: without [tabs.ungroup] the window hop runs, the auxiliary
    window 11 is created and removed, and the new tab ends ungrouped after
    the group. *)
Example scenario_window_hop :
  let r := run (@browser firefox_without_ungroup)
               (@Stabilized.onCreated firefox_without_ungroup ∅ (Some tab5))
               opened_from_group in
  List.filter (fun c => negb (is_fetch_or_wait c)) r.2 =
    [CCreate (Resolved (mkWindow 11));
     CMove 5 11 (-1) (Resolved tt);
     CMove 5 10 (-1) (Resolved tt);
     CRemove 11 (Resolved tt);
     CQuery 10 (Some 7) (Resolved [mkTab 2 10 (Some 7) 1 None;
                                   mkTab 3 10 (Some 7) 2 None]);
     CQuery 10 None (Resolved [mkTab 1 10 (Some (-1)) 0 None;
                               mkTab 2 10 (Some 7) 1 None;
                               mkTab 3 10 (Some 7) 2 None;
                               mkTab 4 10 (Some (-1)) 3 None;
                               mkTab 5 10 (Some (-1)) 4 (Some 2)]);
     CMove 5 10 3 (Resolved tt)] /\
  tab_of (b_tabs r.1.2) 5 = Some (mkTab 5 10 (Some (-1)) 3 (Some 2)) /\
  b_windows r.1.2 = [10].
Proof. repeat split; reflexivity. Qed.


(** Scenario 2: the opener is not grouped; the host is as before. *)
Example scenario_opened_from_ungrouped :
  (run (@browser firefox) (@Stabilized.onCreated firefox ∅ (Some tab5_of_4))
       opened_from_ungrouped).1 =
    (Returned tt, opened_from_ungrouped).
Proof. reflexivity. Qed.

(** Scenario 3: the opener reference is stale and the window's history has
    [current = 7], [previous = 5]; the resolver falls back to tab 7 and the
    new tab is placed after tab 7's group. *)
Example scenario_stale_opener :
  let m := {[ 10 := mkRec (Some 7) (Some 5) ]} : gmap Z ActiveRecord in
  run (@browser firefox) (getOpenerForNewTab m tab8) opened_with_stale_opener =
    (Returned (Some tab7), opened_with_stale_opener,
     [CGet 99 Rejected; CGet 7 (Resolved tab7)]) /\
  tab_of (b_tabs (run (@browser firefox) (@Stabilized.onCreated firefox m (Some tab8))
                      opened_with_stale_opener).1.2) 8 =
    Some (mkTab 8 10 (Some (-1)) 2 (Some 99)).
Proof. split; reflexivity. Qed.

(** The new tab has already become [current]: the resolver uses [previous]. *)
Example scenario_new_tab_already_current :
  let m := {[ 10 := mkRec (Some 8) (Some 7) ]} : gmap Z ActiveRecord in
  run (@browser firefox) (getOpenerForNewTab m tab8) opened_with_stale_opener =
    (Returned (Some tab7), opened_with_stale_opener,
     [CGet 99 Rejected; CGet 7 (Resolved tab7)]).
Proof. reflexivity. Qed.

(** Scenario 5: the first placement move is rejected, the retry succeeds,
    and the new tab is where the first move would have put it. *)
Example scenario_placed_with_retry :
  let r := run (@scripted firefox undisturbed (rejecting 6))
               (@Stabilized.onCreated firefox ∅ (Some tab4))
               (opened_from_singleton, 0%nat) in
  r.1.1 = Returned tt /\
  List.filter is_placement r.2 =
    [CMove 4 10 2 Rejected; CMove 4 10 2 (Resolved tt)] /\
  tab_of (b_tabs r.1.2.1) 4 = Some (mkTab 4 10 (Some (-1)) 2 (Some 2)).
Proof. repeat split; reflexivity. Qed.

(** ** The history after a sequence of activations *)

Lemma replay_snoc (events : list (Z * Z)) (ev : Z * Z) :
  replay (events ++ [ev]) = onActivated ev.1 ev.2 (replay events).
Proof. unfold replay. rewrite fold_left_app. reflexivity. Qed.

Lemma activations_in_snoc (w : Z) (events : list (Z * Z)) (ev : Z * Z) :
  rev (activations_in w (events ++ [ev])) =
    if ev.2 =? w then ev.1 :: rev (activations_in w events)
    else rev (activations_in w events).
Proof.
  unfold activations_in. rewrite List.filter_app. simpl.
  destruct (ev.2 =? w); simpl.
  - rewrite map_app, rev_app_distr. reflexivity.
  - rewrite app_nil_r. reflexivity.
Qed.

(** X1.  After any sequence of activations, starting from the empty map, a
    window has a record exactly when a tab was activated in it; [current] is
    then the tab activated last in that window and [previous] the tab
    activated last before it that is another tab, absent when the window has
    only ever seen one tab active.  Activations in other windows and repeated
    activations of the current tab leave no mark. *)
Theorem history_records_last_two_activations (events : list (Z * Z)) (w : Z) :
  replay events !! w = record_of (rev (activations_in w events)).
Proof.
  induction events as [|[t w'] events IH] using rev_ind; [ reflexivity | ].
  rewrite replay_snoc, activations_in_snoc. cbn [fst snd].
  unfold onActivated.
  destruct (Z.eqb_spec w' w) as [->|Hne].
  - rewrite IH. destruct (rev (activations_in w events)) as [|c r] eqn:E; simpl.
    + rewrite lookup_insert_eq, Z.eqb_refl. reflexivity.
    + destruct (Z.eqb_spec c t) as [->|Hct]; simpl.
      * rewrite IH, ?E. simpl. rewrite !Z.eqb_refl. reflexivity.
      * rewrite lookup_insert_eq, Z.eqb_refl.
        destruct (Z.eqb_spec t c); [ congruence | reflexivity ].
  - destruct (negb _); [ rewrite lookup_insert_ne by assumption | ]; exact IH.
Qed.

(** X2.  With a history built by the activation listener, the candidate
    that line 35 (159) picks is never the new tab itself: when the new tab
    is already [current], [previous] is another tab or absent. *)
Theorem history_candidate_is_another_tab (events : list (Z * Z)) (newTab : Tab) :
  is_id (candidateId (replay events) newTab) (tab_id newTab) = false.
Proof.
  pose proof (distinct_history_reachable events) as Hinv.
  fold (replay events) in Hinv.
  destruct (is_id _ (tab_id newTab)) eqn:E; [ exfalso | reflexivity ].
  apply is_id_true in E. unfold candidateId in E.
  destruct (replay events !! tab_windowId newTab) as [rec|] eqn:El;
    [ | discriminate ].
  destruct (current rec) as [c|] eqn:Ec; [ | discriminate ].
  destruct (Z.eqb_spec c (tab_id newTab)) as [->|Hne]; [ | congruence ].
  exact (Hinv _ _ _ _ El Ec E eq_refl).
Qed.

(** ** The resolver's fetches *)

(** X3.  Whatever the host answers, the resolver returns, after at most two
    fetches, each of the explicit opener or of the history candidate; every
    fetch but the last was rejected, and the result is the tab the last
    fetch delivered, or none when that one was rejected too or no fetch was
    made.  With neither an opener reference nor a candidate it makes no
    call. *)
Theorem getOpenerForNewTab_first_success_wins
    {S : Type} (host : Host S) (m : gmap Z ActiveRecord) (newTab : Tab) (s : S) :
  let r := run host (getOpenerForNewTab m newTab) s in
  r.1.1 = Returned (fetched_tab (hd_error (rev r.2))) /\
  forallb is_rejected_fetch (removelast r.2) = true /\
  (length r.2 <= 2)%nat /\
  Forall (fetches_one_of [tab_openerTabId newTab; candidateId m newTab]) r.2 /\
  (tab_openerTabId newTab = None -> candidateId m newTab = None -> r.2 = []).
Proof.
  unfold getOpenerForNewTab.
  destruct (tab_openerTabId newTab) as [o|]; simpl;
    [ destruct (host Tab (TabsGet o) s) as [[t|] s1]; simpl | ];
    try (destruct (candidateId m newTab) as [c|]; simpl;
         [ match goal with
           | |- context [host Tab (TabsGet c) ?s0] =>
               destruct (host Tab (TabsGet c) s0) as [[t|] s2]; simpl
           end | ]).
  all: split; [ reflexivity | ].
  all: split; [ reflexivity | ].
  all: split; [ simpl; lia | ].
  all: split; [ | try discriminate; reflexivity ].
  all: repeat first [ apply Forall_nil_2 | apply Forall_cons_2 ]; simpl; auto.
Qed.

(** ** The boundary loop *)

Lemma fold_raise_end_from (l : list Tab) (a : Z) :
  -1 <= a -> fold_left raise_end l a = Z.max a (fold_left raise_end l (-1)).
Proof.
  revert a. induction l as [|x l IH]; intros a Ha; simpl; [ lia | ].
  pose proof (raise_end_max a x). pose proof (raise_end_max (-1) x).
  rewrite (IH (raise_end a x)), (IH (raise_end (-1) x)) by lia. lia.
Qed.

(** X4.  The loop of lines 46-48 (170-172) ends below 0, which is what the
    guard "group disappeared" of line 87 (213) tests, exactly when no tab of
    the answer has an index of 0 or more; an empty answer is one such
    case. *)
Theorem groupEnd_negative_iff (l : list Tab) :
  (groupEnd l <? 0) = forallb (fun t => tab_index t <? 0) l.
Proof.
  apply eq_true_iff_eq. rewrite Z.ltb_lt, forallb_forall. unfold groupEnd.
  destruct (fold_raise_end_bounds l (-1)) as (Hge & Hall & Hex). split.
  - intros Hneg t Ht. apply Z.ltb_lt. specialize (Hall t Ht). lia.
  - intros Hl. destruct Hex as [->|(t & Ht & <-)]; [ lia | ].
    apply Z.ltb_lt, Hl, Ht.
Qed.

(** X5.  The boundary of an answer that comes in two parts is the greater
    of the parts' boundaries: the loop can be run over the parts
    separately. *)
Theorem groupEnd_app (l l' : list Tab) :
  groupEnd (l ++ l') = Z.max (groupEnd l) (groupEnd l').
Proof.
  unfold groupEnd. rewrite fold_left_app.
  apply fold_raise_end_from, (groupEnd_ge l).
Qed.

(** ** EnsureUngrouped against any host *)

Section EnsureUngroupedCalls.
Context {S : Type} `{Capabilities} (host : Host S).

(** X6.  Whatever the host answers and whether or not it offers
    [tabs.ungroup], EnsureUngrouped returns normally after at most five
    calls, and each of them is one of: ungrouping the given tab alone, moving
    that tab to the tail of a window, creating a window, removing a window.
    It never fetches, queries or waits. *)
Theorem ensureUngrouped_never_throws (tabId windowId : Z) (s : S) :
  let r := run host (ensureUngrouped tabId windowId) s in
  r.1.1 = Returned tt /\
  (length r.2 <= 5)%nat /\
  forallb (hop_call tabId) r.2 = true.
Proof.
  unfold ensureUngrouped. crunch host.
  all: rewrite ?Z.eqb_refl; repeat split; simpl; lia.
Qed.

Lemma ensureUngrouped_removal (tabId windowId : Z) (s s' : S)
    (c : completion unit) (tr : list call) :
  run host (ensureUngrouped tabId windowId) s = (c, s', tr) ->
  (existsb is_rejected_move tr = true -> existsb is_remove tr = false) /\
  forall w o, In (CRemove w o) tr ->
    exists pre, tr = pre ++ [CCreate (Resolved (mkWindow w));
                             CMove tabId w (-1) (Resolved tt);
                             CMove tabId windowId (-1) (Resolved tt);
                             CRemove w o].
Proof.
  unfold ensureUngrouped. crunch host.
  all: intros [= <- <- <-]; simpl; split; [ try discriminate; reflexivity | ].
  all: intros w o Hin;
    repeat (destruct Hin as [Hin|Hin]; [ try discriminate | ]);
    try contradiction.
  all: injection Hin as <- <-.
  all: repeat match goal with w : Window |- _ => destruct w end; simpl.
  all: first [ exists (@nil call); reflexivity | eexists [_]; reflexivity ].
Qed.

(** X7.  EnsureUngrouped removes a window only at the very end of a hop that
    went through: the window removed is the one it has just created, and the
    tab has by then been moved into it and back to the tail of its own
    window.  When one of these moves is rejected, no window is removed: the
    auxiliary window stays open. *)
Theorem ensureUngrouped_removes_only_its_own_window (tabId windowId : Z) (s : S) :
  let tr := (run host (ensureUngrouped tabId windowId) s).2 in
  (existsb is_rejected_move tr = true -> existsb is_remove tr = false) /\
  forall w o, In (CRemove w o) tr ->
    exists pre, tr = pre ++ [CCreate (Resolved (mkWindow w));
                             CMove tabId w (-1) (Resolved tt);
                             CMove tabId windowId (-1) (Resolved tt);
                             CRemove w o].
Proof.
  destruct (run host (ensureUngrouped tabId windowId) s) as [[c s'] tr] eqn:E.
  exact (ensureUngrouped_removal _ _ _ _ _ _ E).
Qed.
End EnsureUngroupedCalls.

(** ** The handler as the resolver followed by the move *)

Lemma first_call_app (P : call -> bool) (tr0 tr : list call) :
  forallb (fun c => negb (P c)) tr0 = true ->
  first_call P (tr0 ++ tr) =
    match first_call P tr with
    | Some (pre, x, post) => Some (tr0 ++ pre, x, post)
    | None => None
    end.
Proof.
  induction tr0 as [|c tr0 IH]; simpl.
  - intros _. destruct (first_call P tr) as [[[pre x] post]|]; reflexivity.
  - intros Hc. apply andb_prop in Hc as [Hc Htr].
    destruct (P c); [ discriminate | ]. rewrite (IH Htr).
    destruct (first_call P tr) as [[[pre x] post]|]; reflexivity.
Qed.

Lemma gets_are_not (P : call -> bool) (tr : list call) :
  (forall i o, P (CGet i o) = false) ->
  forallb is_get tr = true -> forallb (fun c => negb (P c)) tr = true.
Proof.
  intros HP. induction tr as [|c tr IH]; simpl; [ reflexivity | ].
  intros Hc. apply andb_prop in Hc as [Hc Htr]. rewrite (IH Htr).
  destruct c; try discriminate. rewrite HP. reflexivity.
Qed.

Lemma gets_are_fetches (tr : list call) :
  forallb is_get tr = true -> forallb is_fetch_or_wait tr = true.
Proof.
  induction tr as [|c tr IH]; simpl; [ reflexivity | ].
  intros Hc. apply andb_prop in Hc as [Hc Htr]. rewrite (IH Htr).
  destruct c; try discriminate. reflexivity.
Qed.

Section Handler.
Context {S : Type} `{Capabilities} (host : Host S).

Local Arguments Z.min : simpl never.
Local Arguments groupEnd : simpl never.
Local Arguments Z.of_nat : simpl never.
Local Arguments Z.add : simpl never.

Lemma getOpenerForNewTab_gets (m : gmap Z ActiveRecord) (newTab : Tab) (s : S) :
  forallb is_get (run host (getOpenerForNewTab m newTab) s).2 = true.
Proof.
  unfold getOpenerForNewTab.
  destruct (tab_openerTabId newTab) as [o|]; simpl.
  - destruct (host Tab (TabsGet o) s) as [[t|] s1]; simpl; [ reflexivity | ].
    destruct (candidateId m newTab) as [c|]; simpl; [ | reflexivity ].
    destruct (host Tab (TabsGet c) s1) as [[t|] s2]; reflexivity.
  - destruct (candidateId m newTab) as [c|]; simpl; [ | reflexivity ].
    destruct (host Tab (TabsGet c) s) as [[t|] s2]; reflexivity.
Qed.

(** A property of the handler's runs follows from the same property of the
    runs of the move, with the resolver's fetches before them, and of the
    runs that end with the resolver. *)
Lemma onCreated_cases (v : revision) (m : gmap Z ActiveRecord) (tab : Tab) (s : S)
    (Q : completion unit -> list call -> Prop) :
  (forall tr0, forallb is_get tr0 = true -> Q (Returned tt) tr0) ->
  (forall tr0 opener s0 c s' tr,
     forallb is_get tr0 = true ->
     run host (moveDirectlyAfterGroup_of v tab opener) s0 = (c, s', tr) ->
     Q c (tr0 ++ tr)) ->
  Q (run host (onCreated_of v m (Some tab)) s).1.1
    (run host (onCreated_of v m (Some tab)) s).2.
Proof.
  intros Hquiet Hmove.
  pose proof (getOpenerForNewTab_gets m tab s) as H0.
  destruct (getOpenerForNewTab_returns host m tab s) as [r Hr].
  destruct v; unfold onCreated_of, Direct.onCreated, Stabilized.onCreated,
    mbind, prog_bind; rewrite run_bind.
  all: destruct (run host (getOpenerForNewTab m tab) s) as [[c0 s0] tr0].
  all: simpl in H0, Hr; subst c0.
  all: destruct r as [o|]; [ | simpl; rewrite app_nil_r; auto ].
  all: destruct (isGrouped (Some o)); simpl negb; cbv iota;
         [ | simpl; rewrite app_nil_r; auto ].
  - destruct (run host (Direct.moveDirectlyAfterGroup tab o) s0)
      as [[c1 s1] tr1] eqn:E1.
    exact (Hmove _ o _ _ _ _ H0 E1).
  - destruct (run host (Stabilized.moveDirectlyAfterGroup tab o) s0)
      as [[c1 s1] tr1] eqn:E1.
    exact (Hmove _ o _ _ _ _ H0 E1).
Qed.

(** *** Which tab, and how many waits *)

Lemma move_acts_on_new_tab (v : revision) (newTab opener : Tab) (s s' : S)
    (c : completion unit) (tr : list call) :
  run host (moveDirectlyAfterGroup_of v newTab opener) s = (c, s', tr) ->
  forallb (acts_on (tab_id newTab)) tr = true /\
  (length (List.filter is_timeout tr) <= waits_allowed v)%nat.
Proof.
  destruct v; unfold moveDirectlyAfterGroup_of, Direct.moveDirectlyAfterGroup,
    Stabilized.moveDirectlyAfterGroup, ensureUngrouped, lastIndexOfGroup.
  all: crunch host.
  all: intros [= <- <- <-]; simpl; rewrite ?Z.eqb_refl; split;
         [ reflexivity | simpl; lia ].
Qed.

Lemma filter_gets (P : call -> bool) (tr : list call) :
  (forall i o, P (CGet i o) = false) ->
  forallb is_get tr = true -> List.filter P tr = [].
Proof.
  intros HP. induction tr as [|c tr IH]; simpl; [ reflexivity | ].
  intros Hc. apply andb_prop in Hc as [Hc Htr].
  destruct c; try discriminate. rewrite HP. auto.
Qed.

Lemma forallb_gets (P : call -> bool) (tr : list call) :
  (forall i o, P (CGet i o) = true) ->
  forallb is_get tr = true -> forallb P tr = true.
Proof.
  intros HP. induction tr as [|c tr IH]; simpl; [ reflexivity | ].
  intros Hc. apply andb_prop in Hc as [Hc Htr].
  destruct c; try discriminate. rewrite HP. auto.
Qed.

(** X8.  Whatever the host answers, a handler names no tab to change but
    the new one: every ungroup is of the new tab alone and every move is of
    the new tab; every wait is of [STABILIZE_MS].  The direct revision never
    waits; the stabilised one waits at most twice. *)
Theorem handler_acts_only_on_new_tab
    (v : revision) (m : gmap Z ActiveRecord) (tab : Tab) (s : S) :
  let tr := (run host (onCreated_of v m (Some tab)) s).2 in
  forallb (acts_on (tab_id tab)) tr = true /\
  (length (List.filter is_timeout tr) <= waits_allowed v)%nat.
Proof.
  apply (onCreated_cases v m tab s (fun _ tr =>
    forallb (acts_on (tab_id tab)) tr = true /\
    (length (List.filter is_timeout tr) <= waits_allowed v)%nat)).
  - intros tr0 H0. split.
    + apply forallb_gets; [ reflexivity | exact H0 ].
    + rewrite filter_gets; [ simpl; lia | reflexivity | exact H0 ].
  - intros tr0 opener s0 c s' tr H0 Hrun.
    destruct (move_acts_on_new_tab _ _ _ _ _ _ _ Hrun) as [Hacts Hwaits].
    split.
    + rewrite forallb_app, Hacts, forallb_gets; [ reflexivity.. | exact H0 ].
    + rewrite List.filter_app, filter_gets; [ exact Hwaits | reflexivity | exact H0 ].
Qed.
(** *** Which window, and which group *)

Lemma direct_move_aims (newTab opener : Tab) (s s' : S)
    (c : completion unit) (tr : list call) :
  run host (Direct.moveDirectlyAfterGroup newTab opener) s = (c, s', tr) ->
  exists o rest,
    tr = CGet (tab_id opener) o :: rest /\
    match o with
    | Resolved fresh =>
        match tab_groupId fresh with
        | Some G => forallb (aims_at (tab_windowId fresh) G) rest = true
        | None => rest = []
        end
    | Rejected => rest = []
    end.
Proof.
  unfold Direct.moveDirectlyAfterGroup, ensureUngrouped, lastIndexOfGroup.
  crunch host.
  all: intros [= <- <- <-]; do 2 eexists; split; [ reflexivity | ].
  all: try reflexivity.
  all: cbv beta iota; destruct (tab_groupId _) as [G|]; simpl in *;
         try discriminate.
  all: rewrite ?Z.eqb_refl, ?orb_true_r; reflexivity.
Qed.

Lemma stabilized_move_aims (newTab opener : Tab) (s s' : S)
    (c : completion unit) (tr : list call) :
  run host (Stabilized.moveDirectlyAfterGroup newTab opener) s = (c, s', tr) ->
  exists o0 o rest,
    tr = CTimeout Stabilized.STABILIZE_MS o0 :: CGet (tab_id opener) o :: rest /\
    match o with
    | Resolved fresh =>
        match tab_groupId fresh with
        | Some G => forallb (aims_at (tab_windowId opener) G) rest = true
        | None => rest = []
        end
    | Rejected => rest = []
    end.
Proof.
  unfold Stabilized.moveDirectlyAfterGroup, ensureUngrouped, lastIndexOfGroup.
  crunch host.
  all: intros [= <- <- <-]; do 3 eexists; split; [ reflexivity | ].
  all: try reflexivity.
  all: cbv beta iota; destruct (tab_groupId _) as [G|]; simpl in *;
         try discriminate.
  all: rewrite ?Z.eqb_refl, ?orb_true_r; reflexivity.
Qed.

(** X9.  Both revisions re-fetch the opener first (the stabilised one after
    a wait) and stop at once when the fetch is rejected or delivers a record
    without a group id.  Afterwards every query and every placement move
    names one window, and every group query the group of the re-fetched
    record.  The revisions differ in the window: the direct one takes it
    from the re-fetched record (line 74), the stabilised one from the
    snapshot the resolver returned (line 194). *)
Theorem moveDirectlyAfterGroup_window_and_group (newTab opener : Tab) (s : S) :
  (exists o rest,
     (run host (Direct.moveDirectlyAfterGroup newTab opener) s).2 =
       CGet (tab_id opener) o :: rest /\
     match o with
     | Resolved fresh =>
         match tab_groupId fresh with
         | Some G => forallb (aims_at (tab_windowId fresh) G) rest = true
         | None => rest = []
         end
     | Rejected => rest = []
     end) /\
  (exists o0 o rest,
     (run host (Stabilized.moveDirectlyAfterGroup newTab opener) s).2 =
       CTimeout Stabilized.STABILIZE_MS o0 :: CGet (tab_id opener) o :: rest /\
     match o with
     | Resolved fresh =>
         match tab_groupId fresh with
         | Some G => forallb (aims_at (tab_windowId opener) G) rest = true
         | None => rest = []
         end
     | Rejected => rest = []
     end).
Proof.
  split.
  - destruct (run host (Direct.moveDirectlyAfterGroup newTab opener) s)
      as [[c s'] tr] eqn:E.
    exact (direct_move_aims _ _ _ _ _ _ E).
  - destruct (run host (Stabilized.moveDirectlyAfterGroup newTab opener) s)
      as [[c s'] tr] eqn:E.
    exact (stabilized_move_aims _ _ _ _ _ _ E).
Qed.

(** *** The order of the calls *)

Lemma first_placement_first_call (tr : list call) :
  first_placement tr = first_call is_placement tr.
Proof.
  induction tr as [|c tr IH]; simpl; [ reflexivity | ].
  rewrite IH. reflexivity.
Qed.

(** A property of the handler's first call of a kind, which is no fetch,
    follows from the same property of the move's first call of that kind. *)
Lemma first_call_cases (v : revision) (m : gmap Z ActiveRecord) (tab : Tab) (s : S)
    (P : call -> bool)
    (R : completion unit -> list call -> call -> list call -> Prop) :
  (forall i o, P (CGet i o) = false) ->
  (forall tr0 c pre x post,
     forallb is_get tr0 = true -> R c pre x post -> R c (tr0 ++ pre) x post) ->
  (forall opener s0 c s' tr pre x post,
     run host (moveDirectlyAfterGroup_of v tab opener) s0 = (c, s', tr) ->
     first_call P tr = Some (pre, x, post) -> R c pre x post) ->
  forall pre x post,
    first_call P (run host (onCreated_of v m (Some tab)) s).2 = Some (pre, x, post) ->
    R (run host (onCreated_of v m (Some tab)) s).1.1 pre x post.
Proof.
  intros HP Hpre Hmove.
  apply (onCreated_cases v m tab s (fun c tr =>
    forall pre x post, first_call P tr = Some (pre, x, post) -> R c pre x post)).
  - intros tr0 H0 pre x post.
    rewrite <- (app_nil_r tr0), (first_call_app P tr0 []); [ discriminate | ].
    apply gets_are_not; assumption.
  - intros tr0 opener s0 c s' tr H0 Hrun pre x post.
    rewrite (first_call_app P tr0 tr) by (apply gets_are_not; assumption).
    destruct (first_call P tr) as [[[pre1 x1] post1]|] eqn:E; [ | discriminate ].
    intros [= <- <- <-]. apply Hpre; [ exact H0 | ]. eapply Hmove; eassumption.
Qed.

Lemma move_first_placement (v : revision) (newTab opener : Tab) (s s' : S)
    (c : completion unit) (tr : list call) :
  run host (moveDirectlyAfterGroup_of v newTab opener) s = (c, s', tr) ->
  forall pre x post, first_call is_placement tr = Some (pre, x, post) ->
    exists pre0 w g l all o,
      pre = pre0 ++ [CQuery w (Some g) (Resolved l); CQuery w None (Resolved all)] /\
      x = CMove (tab_id newTab) w (Z.min (Z.of_nat (length all)) (groupEnd l + 1)) o /\
      0 <= groupEnd l.
Proof.
  destruct v; unfold moveDirectlyAfterGroup_of, Direct.moveDirectlyAfterGroup,
    Stabilized.moveDirectlyAfterGroup, ensureUngrouped, lastIndexOfGroup.
  all: crunch host.
  all: intros [= <- <- <-]; try (destruct (tab_groupId _) as [G|]);
         simpl in *; try discriminate.
  all: intros pre y post; rewrite ?placement_slot_nonneg; simpl; intros Hf;
         first [ discriminate | injection Hf as <- <- <- ].
  all: repeat match goal with
              | E : (_ <? _) = false |- _ => apply Z.ltb_ge in E
              end.
  all: split_pre ltac:(solve [ do 5 eexists; split; [ reflexivity | ];
                               split; [ reflexivity | ]; assumption ]).
Qed.

(** X10.  In both revisions the first placement move of a run comes
    directly after the group query and the window query, both resolved; it
    moves the new tab, within the window queried, to the lesser of the number
    of tabs the window query delivered and one more than the boundary of the
    group query's answer; and that boundary is 0 or more: the move is only
    made when the group query delivered a tab at a valid index. *)
Theorem first_placement_follows_live_boundary
    (v : revision) (m : gmap Z ActiveRecord) (tab : Tab) (s : S) :
  let r := run host (onCreated_of v m (Some tab)) s in
  forall pre x post, first_placement r.2 = Some (pre, x, post) ->
    exists pre0 w g l all o,
      pre = pre0 ++ [CQuery w (Some g) (Resolved l); CQuery w None (Resolved all)] /\
      x = CMove (tab_id tab) w (Z.min (Z.of_nat (length all)) (groupEnd l + 1)) o /\
      0 <= groupEnd l.
Proof.
  intros r pre x post. subst r. rewrite first_placement_first_call. revert pre x post.
  apply (first_call_cases v m tab s is_placement (fun _ pre x _ =>
    exists pre0 w g l all o,
      pre = pre0 ++ [CQuery w (Some g) (Resolved l); CQuery w None (Resolved all)] /\
      x = CMove (tab_id tab) w (Z.min (Z.of_nat (length all)) (groupEnd l + 1)) o /\
      0 <= groupEnd l)).
  - reflexivity.
  - intros tr0 c pre x post H0 (pre0 & w & g & l & all & o & -> & Hx & Hl).
    exists (tr0 ++ pre0), w, g, l, all, o. rewrite app_assoc. auto.
  - intros opener s0 c s' tr pre x post Hrun.
    exact (move_first_placement _ _ _ _ _ _ _ Hrun pre x post).
Qed.

Lemma move_first_query (v : revision) (newTab opener : Tab) (s s' : S)
    (c : completion unit) (tr : list call) :
  run host (moveDirectlyAfterGroup_of v newTab opener) s = (c, s', tr) ->
  forall pre x post, first_call is_query tr = Some (pre, x, post) ->
    existsb (is_ungroup_attempt (tab_id newTab)) pre = true /\
    (forall w g l, x = CQuery w g (Resolved l) -> groupEnd l < 0 ->
                   post = [] /\ c = Returned tt) /\
    (forall w g, x = CQuery w g Rejected -> post = [] /\ c = Thrown).
Proof.
  destruct v; unfold moveDirectlyAfterGroup_of, Direct.moveDirectlyAfterGroup,
    Stabilized.moveDirectlyAfterGroup, ensureUngrouped, lastIndexOfGroup.
  all: crunch host.
  all: intros [= <- <- <-] pre y post; simpl; intros Hf;
         first [ discriminate | injection Hf as <- <- <- ].
  all: repeat match goal with
              | E : (_ <? _) = false |- _ => apply Z.ltb_ge in E
              end.
  all: split; [ simpl; rewrite ?Z.eqb_refl, ?orb_true_r; reflexivity | ].
  all: split; [ intros w g l [= <- <- <-] Hneg | intros w g [= <- <-] ];
         first [ lia | split; reflexivity ].
Qed.

(** X11.  In both revisions the group is not queried before an attempt to
    ungroup the new tab has been made: before the first query of a run comes
    a call of [tabs.ungroup] for the new tab, or the creation of the window
    for the hop. *)
Theorem boundary_query_follows_ungroup_attempt
    (v : revision) (m : gmap Z ActiveRecord) (tab : Tab) (s : S) :
  let r := run host (onCreated_of v m (Some tab)) s in
  forall pre x post, first_call is_query r.2 = Some (pre, x, post) ->
    existsb (is_ungroup_attempt (tab_id tab)) pre = true.
Proof.
  intros r. subst r.
  apply (first_call_cases v m tab s is_query (fun _ pre _ _ =>
    existsb (is_ungroup_attempt (tab_id tab)) pre = true)).
  - reflexivity.
  - intros tr0 c pre x post H0 Hpre.
    rewrite existsb_app, Hpre. apply orb_true_r.
  - intros opener s0 c s' tr pre x post Hrun Hf.
    exact (proj1 (move_first_query _ _ _ _ _ _ _ Hrun pre x post Hf)).
Qed.

(** X12.  In both revisions, when the first query of a run, the group
    query of line 86 (212), delivers no tab at index 0 or more, so that the
    boundary is below 0, the handler returns at once: it makes no further
    call, and in particular no move.  When that query is rejected, the run
    ends there too, thrown. *)
Theorem vanished_group_stops_handler
    (v : revision) (m : gmap Z ActiveRecord) (tab : Tab) (s : S) :
  let r := run host (onCreated_of v m (Some tab)) s in
  forall pre x post, first_call is_query r.2 = Some (pre, x, post) ->
    (forall w g l, x = CQuery w g (Resolved l) -> groupEnd l < 0 ->
                   post = [] /\ r.1.1 = Returned tt) /\
    (forall w g, x = CQuery w g Rejected -> post = [] /\ r.1.1 = Thrown).
Proof.
  intros r. subst r.
  apply (first_call_cases v m tab s is_query (fun c _ x post =>
    (forall w g l, x = CQuery w g (Resolved l) -> groupEnd l < 0 ->
                   post = [] /\ c = Returned tt) /\
    (forall w g, x = CQuery w g Rejected -> post = [] /\ c = Thrown))).
  - reflexivity.
  - intros tr0 c pre x post H0 Hpre. exact Hpre.
  - intros opener s0 c s' tr pre x post Hrun Hf.
    exact (proj2 (move_first_query _ _ _ _ _ _ _ Hrun pre x post Hf)).
Qed.

Lemma move_first_effect (v : revision) (newTab opener : Tab) (s s' : S)
    (c : completion unit) (tr : list call) :
  run host (moveDirectlyAfterGroup_of v newTab opener) s = (c, s', tr) ->
  forall pre x post, first_call is_effect tr = Some (pre, x, post) ->
    (exists w o, x = CMove (tab_id newTab) w (-1) o /\
                 w <> tab_windowId newTab /\
                 (o = Rejected -> post = [] /\ c = Returned tt)) \/
    (exists o, x = CUngroup [tab_id newTab] o) \/
    (exists o, x = CCreate o).
Proof.
  destruct v; unfold moveDirectlyAfterGroup_of, Direct.moveDirectlyAfterGroup,
    Stabilized.moveDirectlyAfterGroup, ensureUngrouped, lastIndexOfGroup.
  all: crunch host.
  all: intros [= <- <- <-] pre y post; simpl; intros Hf;
         first [ discriminate | injection Hf as <- <- <- ].
  all: first
         [ right; left; eexists; reflexivity
         | right; right; eexists; reflexivity
         | left; do 2 eexists; split; [ reflexivity | ]; split;
           [ intros Hw; rewrite Hw, Z.eqb_refl in *; discriminate
           | intros Ho; first [ discriminate | split; reflexivity ] ] ].
Qed.

(** X13.  In both revisions the first call of a run that can change the
    host is one of three: the relocation of the new tab to the tail of
    another window than the one the event reported it in, the native ungroup
    of the new tab, or the creation of the window for the hop.  When the
    relocation is rejected the handler returns at once, with no further
    call. *)
Theorem rejected_relocation_stops_handler
    (v : revision) (m : gmap Z ActiveRecord) (tab : Tab) (s : S) :
  let r := run host (onCreated_of v m (Some tab)) s in
  forall pre x post, first_call is_effect r.2 = Some (pre, x, post) ->
    (exists w o, x = CMove (tab_id tab) w (-1) o /\
                 w <> tab_windowId tab /\
                 (o = Rejected -> post = [] /\ r.1.1 = Returned tt)) \/
    (exists o, x = CUngroup [tab_id tab] o) \/
    (exists o, x = CCreate o).
Proof.
  intros r. subst r.
  apply (first_call_cases v m tab s is_effect (fun c _ x post =>
    (exists w o, x = CMove (tab_id tab) w (-1) o /\
                 w <> tab_windowId tab /\
                 (o = Rejected -> post = [] /\ c = Returned tt)) \/
    (exists o, x = CUngroup [tab_id tab] o) \/
    (exists o, x = CCreate o))).
  - reflexivity.
  - intros tr0 c pre x post H0 Hpre. exact Hpre.
  - intros opener s0 c s' tr pre x post Hrun.
    exact (move_first_effect _ _ _ _ _ _ _ Hrun pre x post).
Qed.
End Handler.

(** ** Runs that end without a throw *)

Section Returns.
Context {S : Type} `{Capabilities} (host : Host S).

Lemma run_query_outcome {R : Type} (p : prog R) (s : S) (w : Z) (g : option Z)
    (o : outcome (list Tab)) :
  In (CQuery w g o) (run host p s).2 ->
  exists s0, o = (host _ (TabsQuery w g) s0).1.
Proof.
  revert s. induction p as [r| |X e k IH]; intros s; simpl; try contradiction.
  destruct (host X e s) as [o1 s1] eqn:E.
  specialize (IH o1 s1). destruct (run host (k o1) s1) as [[c s2] tr].
  simpl. intros [Hc|Hin]; [ | auto ].
  destruct e; simpl in Hc; try discriminate.
  injection Hc as -> -> ->. exists s. rewrite E. reflexivity.
Qed.

(** X14.  On a host that rejects no query, a handler of either revision
    returns normally, whatever else is rejected: the two queries of the
    first boundary computation are the only calls whose rejection is not
    caught. *)
Theorem handler_returns_when_queries_resolve
    (v : revision) (m : gmap Z ActiveRecord) (tab : option Tab) (s : S) :
  (forall w g s0, (host _ (TabsQuery w g) s0).1 <> Rejected) ->
  (run host (onCreated_of v m tab) s).1.1 = Returned tt.
Proof.
  intros Hq.
  assert (Hthrown : thrown_at_query (run host (onCreated_of v m tab) s).1.1
                                    (run host (onCreated_of v m tab) s).2).
  { destruct (run host (onCreated_of v m tab) s) as [[c s'] tr] eqn:E.
    destruct v; simpl in E.
    - apply (direct_onCreated_shape host _ _ _ _ _ _ E).
    - apply (stabilized_onCreated_shape host _ _ _ _ _ _ E). }
  destruct Hthrown as [Hc|(_ & _ & pre & w & g & Htr)]; [ exact Hc | ].
  exfalso.
  destruct (run_query_outcome (onCreated_of v m tab) s w g Rejected) as [s0 Hs0].
  - rewrite Htr. apply in_or_app. right. left. reflexivity.
  - exact (Hq w g s0 (eq_sym Hs0)).
Qed.
End Returns.

(** ** An opener that cannot be fetched *)

(** X15.  When the resolver finds no opener, or the opener it found can no
    longer be fetched when the orchestrator asks for it again (in the
    stabilised revision after the wait), the handler returns having made no
    call but fetches and waits. *)
Theorem vanished_opener_leaves_tab_untouched
    {S : Type} `{Capabilities} (host : Host S)
    (v : revision) (m : gmap Z ActiveRecord) (tab : Tab) (s : S) :
  let r0 := run host (getOpenerForNewTab m tab) s in
  (r0.1.1 = Returned None \/
   exists opener,
     r0.1.1 = Returned (Some opener) /\
     (host _ (TabsGet (tab_id opener)) (refetch_state host v r0.1.2)).1 = Rejected) ->
  untouched host (onCreated_of v m (Some tab)) s.
Proof.
  intros r0 Hcase. subst r0.
  pose proof (getOpenerForNewTab_only_fetches host m tab s) as Htr0.
  apply untouched_intro.
  all: destruct v; unfold onCreated_of, Direct.onCreated, Stabilized.onCreated,
         mbind, prog_bind; rewrite run_bind.
  all: destruct (run host (getOpenerForNewTab m tab) s) as [[c0 s0] tr0].
  all: simpl in Htr0, Hcase.
  all: destruct Hcase as [->|(opener & -> & Hget)];
         [ simpl; rewrite ?forallb_app, ?Htr0; reflexivity | ].
  all: destruct (isGrouped (Some opener)); simpl negb; cbv iota;
         [ | simpl; rewrite ?forallb_app, ?Htr0; reflexivity ].
  all: simpl in Hget |- *.
  all: try destruct (host unit (SetTimeout Stabilized.STABILIZE_MS) s0)
         as [o1 s1].
  all: simpl in Hget.
  all: match type of Hget with
       | (?h Tab ?e ?s2).1 = _ => destruct (h Tab e s2) as [o2 s2']
       end.
  all: simpl in Hget; subst o2; simpl; rewrite ?forallb_app, ?Htr0; reflexivity.
Qed.

(** ** The two revisions on a quiescent host *)

Section Quiescent.
Context {S : Type} `{Capabilities} (host : Host S).
Hypothesis Hquiet : quiescent host.

Lemma run_bind_ext {A B : Type} (p : prog A) (f g : A -> prog B) (s : S) :
  (forall a s1, (run host (f a) s1).1 = (run host (g a) s1).1) ->
  (run host (bind p f) s).1 = (run host (bind p g) s).1.
Proof.
  intros Hfg. rewrite !run_bind.
  destruct (run host p s) as [[c s1] tr1]. destruct c as [a|]; [ | reflexivity ].
  specialize (Hfg a s1).
  destruct (run host (f a) s1) as [[c2 s2] tr2].
  destruct (run host (g a) s1) as [[c3 s3] tr3]. exact Hfg.
Qed.

(** After a rejected placement the retry of lines 219-226 finds the host
    unchanged, so its move is rejected again. *)
Lemma retry_is_idle (i w : Z) (g : option Z) (target : Z) (s : S) :
  (run host (try_catch (await (TabsMove i w target)) (mret tt)) s).1 =
  (run host
     (try_catch
        (await (TabsMove i w target))
        (_ ← wait Stabilized.STABILIZE_MS;
         try_catch
           (end2 ← lastIndexOfGroup g w;
            all2 ← await (TabsQuery w None);
            let target2 := Z.min (Z.of_nat (length all2)) (end2 + 1) in
            await (TabsMove i w target2))
           (mret tt))) s).1.
Proof.
  simpl.
  destruct (host unit (TabsMove i w target) s) as [[[]|] s1] eqn:E;
    [ reflexivity | ].
  pose proof (quiet_move host Hquiet i w target s) as Hm.
  rewrite E in Hm. specialize (Hm eq_refl).
  assert (s1 = s) as -> by (rewrite (Hm target) in E; congruence).
  simpl.
  pose proof (quiet_wait host Hquiet Stabilized.STABILIZE_MS s) as Hw.
  destruct (host unit (SetTimeout Stabilized.STABILIZE_MS) s) as [o0 s0].
  simpl in Hw. subst s0. simpl.
  destruct (quiet_query host Hquiet w g s) as [l Hl]. rewrite Hl. simpl.
  destruct (quiet_query host Hquiet w None s) as [all Hall]. rewrite Hall. simpl.
  rewrite Hm. reflexivity.
Qed.

Lemma refetch_quiescent (opener : Tab) (s : S) :
  host _ (TabsGet (tab_id opener)) s = (Resolved opener, s) ->
  run host
      (try_catch (t ← await (TabsGet (tab_id opener)); mret (Some t)) (mret None)) s =
    (Returned (Some opener), s, [CGet (tab_id opener) (Resolved opener)]).
Proof. intros Hget. simpl. rewrite Hget. reflexivity. Qed.

Lemma moves_agree (tab opener : Tab) (s : S) :
  host _ (TabsGet (tab_id opener)) s = (Resolved opener, s) ->
  (run host (Direct.moveDirectlyAfterGroup tab opener) s).1 =
  (run host (Stabilized.moveDirectlyAfterGroup tab opener) s).1.
Proof.
  intros Hget. pose proof (refetch_quiescent opener s Hget) as Hf.
  unfold Direct.moveDirectlyAfterGroup, Stabilized.moveDirectlyAfterGroup,
    mbind, prog_bind in *.
  rewrite (run_bind host (wait Stabilized.STABILIZE_MS)).
  pose proof (quiet_wait host Hquiet Stabilized.STABILIZE_MS s) as Hw.
  unfold wait at 1. cbn [run].
  destruct (host unit (SetTimeout Stabilized.STABILIZE_MS) s) as [o0 s0].
  simpl in Hw. subst s0. cbv beta iota.
  rewrite !run_bind, Hf. cbv beta iota.
  destruct (negb (isGrouped (Some opener))); [ reflexivity | ].
  assert (Hrest :
    (run host
       (bind
          (if negb (tab_windowId tab =? tab_windowId opener)
           then try_catch
                  (bind (await (TabsMove (tab_id tab) (tab_windowId opener) (-1)))
                        (fun _ => mret true))
                  (mret false)
           else mret true)
          (fun moved : bool =>
           if negb moved then mret tt
           else
             bind (ensureUngrouped (tab_id tab) (tab_windowId opener)) (fun _ =>
             bind (lastIndexOfGroup (tab_groupId opener) (tab_windowId opener))
               (fun end_ =>
                if end_ <? 0 then mret tt
                else
                  bind (await (TabsQuery (tab_windowId opener) None)) (fun allTabs =>
                  try_catch
                    (await (TabsMove (tab_id tab) (tab_windowId opener)
                              (Z.min (Z.of_nat (length allTabs)) (end_ + 1))))
                    (mret tt)))))) s).1 =
    (run host
       (bind
          (if negb (tab_windowId tab =? tab_windowId opener)
           then try_catch
                  (bind (await (TabsMove (tab_id tab) (tab_windowId opener) (-1)))
                        (fun _ => mret true))
                  (mret false)
           else mret true)
          (fun moved : bool =>
           if negb moved then mret tt
           else
             bind (ensureUngrouped (tab_id tab) (tab_windowId opener)) (fun _ =>
             bind (lastIndexOfGroup (tab_groupId opener) (tab_windowId opener))
               (fun end_ =>
                if end_ <? 0 then mret tt
                else
                  bind (await (TabsQuery (tab_windowId opener) None)) (fun allTabs =>
                  try_catch
                    (await (TabsMove (tab_id tab) (tab_windowId opener)
                              (Z.min (Z.of_nat (length allTabs)) (end_ + 1))))
                    (bind (wait Stabilized.STABILIZE_MS) (fun _ =>
                     try_catch
                       (bind (lastIndexOfGroup (tab_groupId opener)
                                               (tab_windowId opener)) (fun end2 =>
                        bind (await (TabsQuery (tab_windowId opener) None))
                          (fun all2 =>
                           await (TabsMove (tab_id tab) (tab_windowId opener)
                                    (Z.min (Z.of_nat (length all2)) (end2 + 1))))))
                       (mret tt)))))))) s).1).
  { apply run_bind_ext. intros moved s1.
    destruct (negb moved); [ reflexivity | ].
    apply run_bind_ext. intros _ s2.
    apply run_bind_ext. intros end_ s3.
    destruct (end_ <? 0); [ reflexivity | ].
    apply run_bind_ext. intros allTabs s4.
    apply retry_is_idle. }
  destruct (run host _ s) as [[c1 s1] tr1] in Hrest |- *.
  destruct (run host _ s) as [[c2 s2] tr2] in Hrest |- *.
  simpl in Hrest |- *. exact Hrest.
Qed.

(** X16.  On a quiescent host the two revisions end every run in the same
    way and leave the host in the same state: the wait changes nothing, the
    re-fetched record is the snapshot, and the retry repeats a move that is
    rejected again.  The stabilised revision only differs from the direct
    one when something else acts on the host during the run. *)
Theorem revisions_agree_on_quiescent_host
    (m : gmap Z ActiveRecord) (tab : option Tab) (s : S) :
  (run host (Direct.onCreated m tab) s).1 =
  (run host (Stabilized.onCreated m tab) s).1.
Proof.
  destruct tab as [tab|]; [ | reflexivity ].
  unfold Direct.onCreated, Stabilized.onCreated, mbind, prog_bind.
  rewrite !run_bind.
  assert (Hres : forall opener,
    (run host (getOpenerForNewTab m tab) s).1.1 = Returned (Some opener) ->
    (run host (getOpenerForNewTab m tab) s).1.2 = s /\
    host _ (TabsGet (tab_id opener)) s = (Resolved opener, s)).
  { intros opener. unfold getOpenerForNewTab.
    assert (Hg : forall i t s1,
              host Tab (TabsGet i) s = (Resolved t, s1) ->
              s1 = s /\ host Tab (TabsGet (tab_id t)) s = (Resolved t, s)).
    { intros i t s1 E. destruct (quiet_get host Hquiet i s) as [Hs Hid].
      rewrite E in Hs, Hid. simpl in Hs, Hid. subst s1.
      rewrite (Hid t eq_refl). auto. }
    assert (Hr : forall i s1, host Tab (TabsGet i) s = (Rejected, s1) -> s1 = s).
    { intros i s1 E. destruct (quiet_get host Hquiet i s) as [Hs _].
      rewrite E in Hs. exact Hs. }
    destruct (tab_openerTabId tab) as [o|]; simpl.
    - destruct (host Tab (TabsGet o) s) as [[t|] s1] eqn:E1; simpl.
      + intros [= <-]. exact (Hg _ _ _ E1).
      + apply Hr in E1. subst s1.
        destruct (candidateId m tab) as [c|]; simpl; [ | discriminate ].
        destruct (host Tab (TabsGet c) s) as [[t|] s2] eqn:E2; simpl;
          [ | discriminate ].
        intros [= <-]. exact (Hg _ _ _ E2).
    - destruct (candidateId m tab) as [c|]; simpl; [ | discriminate ].
      destruct (host Tab (TabsGet c) s) as [[t|] s2] eqn:E2; simpl;
        [ | discriminate ].
      intros [= <-]. exact (Hg _ _ _ E2). }
  destruct (run host (getOpenerForNewTab m tab) s) as [[c0 s0] tr0].
  destruct c0 as [[opener|]|]; try reflexivity.
  destruct (Hres opener eq_refl) as [Hs0 Hget]. simpl in Hs0. subst s0.
  destruct (negb (isGrouped (Some opener))); [ reflexivity | ].
  pose proof (moves_agree tab opener s Hget) as Hmv.
  destruct (run host (Direct.moveDirectlyAfterGroup tab opener) s)
    as [[c1 s1] tr1].
  destruct (run host (Stabilized.moveDirectlyAfterGroup tab opener) s)
    as [[c2 s2] tr2].
  simpl in Hmv |- *. exact Hmv.
Qed.
End Quiescent.

(** ** The reference host is quiescent *)

Lemma browser_quiescent `{Capabilities} : quiescent browser.
Proof.
  split.
  - reflexivity.
  - intros i s. simpl. split; [ reflexivity | ].
    destruct (tab_of (b_tabs s) i) as [u|] eqn:E; [ | discriminate ].
    intros t [= <-]. apply (tab_of_Some _ _ _ E).
  - intros w g s. eexists. reflexivity.
  - intros i w idx s. simpl.
    destruct (tab_of (b_tabs s) i) as [u|]; [ | reflexivity ].
    destruct (existsb (Z.eqb w) (b_windows s)); [ discriminate | reflexivity ].
Qed.

Lemma revisions_agree_witness :
  (run (@browser firefox) (@Direct.onCreated firefox ∅ (Some tab5))
       opened_from_group).1 =
  (run (@browser firefox) (@Stabilized.onCreated firefox ∅ (Some tab5))
       opened_from_group).1.
Proof.
  exact (@revisions_agree_on_quiescent_host Browser firefox (@browser firefox)
           (@browser_quiescent firefox) ∅ (Some tab5) opened_from_group).
Defined.

(** ** The hop leaves nothing behind *)

Section Cleanup.
Context `{Capabilities}.

Lemma filter_all {A : Type} (P : A -> bool) (l : list A) :
  (forall x, In x l -> P x = true) -> List.filter P l = l.
Proof.
  induction l as [|x l IH]; simpl; [ reflexivity | ].
  intros HP. rewrite (HP x (or_introl eq_refl)). f_equal. auto.
Qed.

Lemma map_place_ids t w j l : map tab_id (map (place t w j) l) = map tab_id l.
Proof. rewrite map_map. apply map_ext. intros u. apply place_id. Qed.

Lemma windowHop_browser_state (i W : Z) (b : Browser) (u : Tab) :
  tab_of (b_tabs b) i = Some u -> In W (b_windows b) ->
  let tmp := fresh_window b in
  let l2 := move_tab u tmp (-1) (b_tabs b) in
  let u1 := moved u tmp (slot tmp i (-1) (b_tabs b)) in
  let l3 := move_tab u1 W (-1) l2 in
  (windowHop browser i W b).1 =
    mkBrowser (List.filter (fun t => negb (tab_windowId t =? tmp)) l3)
              (List.filter (fun w' => negb (w' =? tmp)) (tmp :: b_windows b)).
Proof.
  intros Hu HW tmp l2 u1 l3.
  pose proof (tab_of_Some _ _ _ Hu) as [_ Hid].
  set (b1 := mkBrowser (b_tabs b) (tmp :: b_windows b)).
  assert (H1 : browser unit (TabsMove i tmp (-1)) b1 =
               (Resolved tt, mkBrowser l2 (tmp :: b_windows b))).
  { apply (browser_move_ok b1); [ exact Hu | left; reflexivity ]. }
  assert (Hu1 : tab_of l2 i = Some u1).
  { subst l2 u1. rewrite <- Hid. apply move_tab_self. rewrite Hid. exact Hu. }
  assert (H2 : browser unit (TabsMove i W (-1)) (mkBrowser l2 (tmp :: b_windows b)) =
               (Resolved tt, mkBrowser l3 (tmp :: b_windows b))).
  { apply (browser_move_ok (mkBrowser l2 _)); [ exact Hu1 | right; exact HW ]. }
  assert (H3 : browser unit (WindowsRemove tmp) (mkBrowser l3 (tmp :: b_windows b)) =
               (Resolved tt,
                mkBrowser (List.filter (fun t => negb (tab_windowId t =? tmp)) l3)
                          (List.filter (fun w' => negb (w' =? tmp))
                                       (tmp :: b_windows b)))).
  { apply (browser_remove_ok (mkBrowser l3 _)). left. reflexivity. }
  unfold windowHop. change (browser Window WindowsCreate b)
    with (Resolved (mkWindow tmp), b1). cbn [win_id]. cbv beta iota.
  rewrite H1. cbv beta iota. rewrite H2. cbv beta iota. rewrite H3.
  reflexivity.
Qed.

Lemma windowHop_browser_clean (i W : Z) (b : Browser) (u : Tab) :
  tab_of (b_tabs b) i = Some u -> In W (b_windows b) ->
  b_windows (windowHop browser i W b).1 = b_windows b /\
  map tab_id (b_tabs (windowHop browser i W b).1) = map tab_id (b_tabs b).
Proof.
  intros Hu HW. rewrite (windowHop_browser_state i W b u Hu HW).
  pose proof (tab_of_Some _ _ _ Hu) as [_ Hid].
  assert (Hfresh : W <> fresh_window b).
  { intros ->. exact (fresh_window_not_open b HW). }
  cbn [b_tabs b_windows]. split.
  - simpl. rewrite Z.eqb_refl. simpl. apply filter_all.
    intros w Hw. destruct (Z.eqb_spec w (fresh_window b)) as [->|]; [ | reflexivity ].
    exfalso. exact (fresh_window_not_open b Hw).
  - rewrite filter_all.
    + unfold move_tab. rewrite !map_place_ids. reflexivity.
    + intros t Ht. unfold move_tab in Ht.
      apply in_map_iff in Ht as (t1 & <- & Ht1).
      apply in_map_iff in Ht1 as (t0 & <- & Ht0).
      pose proof (fresh_window_empty b t0 Ht0) as Hw0.
      set (j2 := slot (fresh_window b) (tab_id u) (-1) (b_tabs b)) in *.
      set (u1 := moved u (fresh_window b) (slot (fresh_window b) i (-1) (b_tabs b))).
      set (j3 := slot W (tab_id u1) (-1) _).
      destruct (Z.eq_dec (tab_id t0) (tab_id u)) as [Heq|Hne].
      * assert (Hp : tab_id (place u (fresh_window b) j2 t0) = tab_id u1)
          by (rewrite place_id; exact Heq).
        unfold place at 1. apply Z.eqb_eq in Hp. rewrite Hp. simpl.
        destruct (Z.eqb_spec W (fresh_window b)); [ contradiction | reflexivity ].
      * assert (Hp : tab_id (place u (fresh_window b) j2 t0) <> tab_id u1)
          by (rewrite place_id; exact Hne).
        destruct (place_other u1 W j3 _ Hp) as (-> & _ & _).
        destruct (place_other u (fresh_window b) j2 t0 Hne) as (-> & _ & _).
        destruct (Z.eqb_spec (tab_windowId t0) (fresh_window b));
          [ contradiction | reflexivity ].
Qed.

(** X17.  On the reference host, EnsureUngrouped of an existing tab towards
    an open window leaves nothing behind, with or without [tabs.ungroup]:
    the open windows are those open before, the auxiliary window of the hop
    is gone, and the tabs are the same ones, none lost with that window. *)
Theorem ensureUngrouped_leaves_nothing_behind (b : Browser) (i W : Z) (u : Tab) :
  tab_of (b_tabs b) i = Some u ->
  In W (b_windows b) ->
  let b' := (run browser (ensureUngrouped i W) b).1.2 in
  b_windows b' = b_windows b /\
  map tab_id (b_tabs b') = map tab_id (b_tabs b).
Proof.
  intros Hu HW b'. subst b'.
  destruct tabs_ungroup eqn:Hcap.
  - destruct (ensureUngrouped_browser_native i W b u Hcap Hu) as [-> _].
    cbn [fst snd b_tabs b_windows]. split; [ reflexivity | ].
    rewrite map_map. apply map_ext. intros t. apply ungroup_in_id.
  - rewrite (ensureUngrouped_absent browser i W b Hcap). cbn [fst snd].
    exact (windowHop_browser_clean i W b u Hu HW).
Qed.
End Cleanup.

Lemma ensureUngrouped_leaves_nothing_witness :
  let b' := (run (@browser firefox_without_ungroup)
                 (@ensureUngrouped firefox_without_ungroup 5 10)
                 opened_from_group).1.2 in
  b_windows b' = [10] /\ map tab_id (b_tabs b') = [1; 2; 3; 4; 5].
Proof.
  apply (@ensureUngrouped_leaves_nothing_behind firefox_without_ungroup
           opened_from_group 5 10 tab5); [ reflexivity | left; reflexivity ].
Defined.

(** ** Runs that exercise the properties above *)

Lemma getOpenerForNewTab_first_success_witness :
  (run (@browser firefox) (getOpenerForNewTab ∅ tab2) opened_from_group).2 = [].
Proof.
  apply (getOpenerForNewTab_first_success_wins (@browser firefox) ∅ tab2
           opened_from_group); reflexivity.
Defined.

Lemma ensureUngrouped_removes_witness :
  let tr := (run (@scripted firefox_without_ungroup undisturbed (rejecting 2))
                 (@ensureUngrouped firefox_without_ungroup 5 10)
                 (opened_from_group, 0%nat)).2 in
  existsb is_rejected_move tr = true /\ existsb is_remove tr = false.
Proof.
  intros tr. split; [ reflexivity | ].
  apply (proj1 (@ensureUngrouped_removes_only_its_own_window _
                  firefox_without_ungroup
                  (@scripted firefox_without_ungroup undisturbed (rejecting 2))
                  5 10 (opened_from_group, 0%nat))).
  reflexivity.
Defined.

Lemma first_placement_witness :
  let r := run (@browser firefox) (@onCreated_of firefox direct ∅ (Some tab5))
               opened_from_group in
  exists pre0 w g l all o,
    firstn 5 r.2 =
      pre0 ++ [CQuery w (Some g) (Resolved l); CQuery w None (Resolved all)] /\
    nth 5 r.2 (CCreate Rejected) =
      CMove 5 w (Z.min (Z.of_nat (length all)) (groupEnd l + 1)) o /\
    0 <= groupEnd l.
Proof.
  intros r.
  apply (@first_placement_follows_live_boundary _ firefox (@browser firefox)
           direct ∅ tab5 opened_from_group
           (firstn 5 r.2) (nth 5 r.2 (CCreate Rejected)) (skipn 6 r.2)).
  reflexivity.
Defined.

Lemma boundary_query_follows_witness :
  let r := run (@browser firefox_without_ungroup)
               (@onCreated_of firefox_without_ungroup stabilized ∅ (Some tab5))
               opened_from_group in
  existsb (is_ungroup_attempt 5) (firstn 7 r.2) = true.
Proof.
  intros r.
  apply (@boundary_query_follows_ungroup_attempt _ firefox_without_ungroup
           (@browser firefox_without_ungroup) stabilized ∅ tab5 opened_from_group
           (firstn 7 r.2) (nth 7 r.2 (CCreate Rejected)) (skipn 8 r.2)).
  reflexivity.
Defined.

Lemma vanished_group_witness :
  let r := run (@scripted firefox opener_closed_before_query accepting)
               (@onCreated_of firefox direct ∅ (Some tab4))
               (opened_from_singleton, 0%nat) in
  skipn 4 r.2 = [] /\ r.1.1 = Returned tt.
Proof.
  intros r.
  refine (proj1 (@vanished_group_stops_handler _ firefox
                   (@scripted firefox opener_closed_before_query accepting)
                   direct ∅ tab4 (opened_from_singleton, 0%nat)
                   (firstn 3 r.2) (CQuery 10 (Some 7) (Resolved []))
                   (skipn 4 r.2) _)
                10 (Some 7) [] eq_refl _);
    reflexivity.
Defined.

Lemma rejected_relocation_witness :
  let r := run (@scripted firefox undisturbed (rejecting 2))
               (@onCreated_of firefox direct ∅ (Some tab9))
               (opened_in_other_window, 0%nat) in
  nth 2 r.2 (CCreate Rejected) = CMove 9 10 (-1) Rejected /\
  skipn 3 r.2 = [] /\ r.1.1 = Returned tt.
Proof.
  intros r. split; [ reflexivity | ].
  destruct (@rejected_relocation_stops_handler _ firefox
              (@scripted firefox undisturbed (rejecting 2))
              direct ∅ tab9 (opened_in_other_window, 0%nat)
              (firstn 2 r.2) (CMove 9 10 (-1) Rejected) (skipn 3 r.2) eq_refl)
    as [(w & o & Hx & _ & Hstop)|[(o & Hx)|(o & Hx)]];
    [ | discriminate | discriminate ].
  apply Hstop. congruence.
Defined.

Lemma handler_returns_witness :
  (run (@scripted firefox undisturbed accepting)
       (@onCreated_of firefox stabilized ∅ (Some tab5))
       (opened_from_group, 0%nat)).1.1 = Returned tt.
Proof.
  apply (@handler_returns_when_queries_resolve _ firefox
           (@scripted firefox undisturbed accepting)).
  intros w g s0. discriminate.
Defined.

Lemma vanished_opener_witness :
  untouched (@scripted firefox opener_closed_after_resolution accepting)
            (@onCreated_of firefox direct ∅ (Some tab5))
            (opened_from_group, 0%nat).
Proof.
  apply (@vanished_opener_leaves_tab_untouched _ firefox
           (@scripted firefox opener_closed_after_resolution accepting)
           direct ∅ tab5 (opened_from_group, 0%nat)).
  right. exists tab2. split; reflexivity.
Defined.
